(** * The token lifecycle manager of ApiAutoTest-unittest

    A shallow embedding of [core/token_handler.py] and of the settings
    class of [config/handle_token_config.py], with the properties of the
    token provider, the token manager and the fetcher pool.

    Conventions of the embedding:
    - Python objects live in a store and are named by their address
      ([nat]); a method takes [self] as an address, so two managers that
      hold the same provider really share it.
    - [time.time()], the refresh endpoint, the logger and the event loop
      are the environment: a clock that is read tick by tick, a table of
      the outcomes of successive POSTs, a trace of events, and the number
      of timers the loop lets fire before it resumes a caller.
    - wall-clock times are integers ([Z], seconds) instead of floats.
    - an exception is a value of [exn]; a method is a computation in the
      state-and-exception monad [M].
    - a method runs from its call to its return without another thread or
      task changing the objects in between; where the code awaits, the
      order in which the tasks of the event loop run is written out. *)

From Stdlib Require Import ZArith Lia Bool List Ascii String.
From stdpp Require Import base tactics option list gmap strings functions.
Import ListNotations.

Local Open Scope string_scope.
Local Open Scope list_scope.
Local Open Scope Z_scope.

(** ** Python values and exceptions *)

Inductive pyval : Type :=
| PyNone
| PyBool (b : bool)
| PyInt (z : Z)
| PyStr (s : string).

(** Truth value of an object, as [if x:] and [x and y] test it. *)
Definition truthy (v : pyval) : bool :=
  match v with
  | PyNone => false
  | PyBool b => b
  | PyInt z => negb (z =? 0)
  | PyStr s => negb (String.eqb s "")
  end.

(** [v is None] *)
Definition is_None (v : pyval) : bool :=
  match v with PyNone => true | _ => false end.

(** The exception classes that occur. All of them derive from [Exception],
    so every one is caught by [except Exception]. [ClientError] is
    [aiohttp.ClientError]; [TimeoutError] is [asyncio.TimeoutError];
    [AttributeError] carries the name of the attribute that was not found
    and [KeyError] the key. *)
Inductive exn : Type :=
| NotImplementedError
| AttributeError (attr : string)
| KeyError (key : string)
| ValueError
| TypeError
| ClientError
| TimeoutError
| RecursionError.

(** ** hashlib.sha256 (FIPS 180-4), on byte strings

    A [string] of Rocq is a sequence of bytes; it stands for the UTF-8
    encoding that [str.encode()] produces. *)
Module Sha256.

Definition mask32 : Z := 0xffffffff.
Definition w32 (x : Z) : Z := Z.land x mask32.
Definition add32 (x y : Z) : Z := w32 (x + y).
Definition rotr (n x : Z) : Z :=
  Z.lor (Z.shiftr x n) (w32 (Z.shiftl x (32 - n))).
Definition Ch (x y z : Z) : Z :=
  Z.lxor (Z.land x y) (Z.land (Z.lxor x mask32) z).
Definition Maj (x y z : Z) : Z :=
  Z.lxor (Z.lxor (Z.land x y) (Z.land x z)) (Z.land y z).
Definition Sigma0 (x : Z) : Z := Z.lxor (Z.lxor (rotr 2 x) (rotr 13 x)) (rotr 22 x).
Definition Sigma1 (x : Z) : Z := Z.lxor (Z.lxor (rotr 6 x) (rotr 11 x)) (rotr 25 x).
Definition sigma0 (x : Z) : Z := Z.lxor (Z.lxor (rotr 7 x) (rotr 18 x)) (Z.shiftr x 3).
Definition sigma1 (x : Z) : Z := Z.lxor (Z.lxor (rotr 17 x) (rotr 19 x)) (Z.shiftr x 10).

(** The constants are defined as the standard defines them: the first 32
    bits of the fractional parts of the cube roots (for [K]) and of the
    square roots (for [H0]) of the first primes. *)
Definition is_prime (n : Z) : bool :=
  (2 <=? n)
  && forallb (fun d => negb (n mod d =? 0) || (n <=? d))
             (map Z.of_nat (seq 2 (Z.to_nat (Z.sqrt n)))).

Definition first_primes (count : nat) : list Z :=
  firstn count (List.filter is_prime (map Z.of_nat (seq 2 400))).

(** The integer cube root, found bit by bit from bit [bits - 1] down. *)
Fixpoint icbrt_from (bits : nat) (x acc : Z) : Z :=
  match bits with
  | O => acc
  | S b =>
      let c := acc + 2 ^ Z.of_nat b in
      if c * c * c <=? x then icbrt_from b x c else icbrt_from b x acc
  end.

Definition K : list Z :=
  Eval vm_compute in
    map (fun p => w32 (icbrt_from 40 (p * 2 ^ 96) 0)) (first_primes 64).

Definition H0 : list Z :=
  Eval vm_compute in
    map (fun p => w32 (Z.sqrt (p * 2 ^ 64))) (first_primes 8).

Definition bytes_of_string (s : string) : list Z :=
  map (fun c => Z.of_N (N_of_ascii c)) (list_ascii_of_string s).

(** Big-endian bytes of [x], [n] of them. *)
Fixpoint be_bytes (n : nat) (x : Z) : list Z :=
  match n with
  | O => []
  | S n' => Z.land (Z.shiftr x (8 * Z.of_nat n')) 0xff :: be_bytes n' x
  end.

(** The message, the byte 0x80, zeros up to 56 modulo 64, and the length
    in bits as a 64-bit big-endian integer. *)
Definition pad (msg : list Z) : list Z :=
  let len := Z.of_nat (length msg) in
  let zeros := Z.to_nat ((55 - len) mod 64) in
  msg ++ 0x80 :: repeat 0 zeros ++ be_bytes 8 (8 * len).

Fixpoint words (fuel : nat) (bs : list Z) : list Z :=
  match fuel, bs with
  | S f, b0 :: b1 :: b2 :: b3 :: rest =>
      (b0 * 0x1000000 + b1 * 0x10000 + b2 * 0x100 + b3) :: words f rest
  | _, _ => []
  end.

(** The message schedule: [sched n ws] extends the words [ws] (newest
    first) by [n] more. *)
Fixpoint sched (n : nat) (rev_ws : list Z) : list Z :=
  match n with
  | O => rev_ws
  | S n' =>
      let w i := nth i rev_ws 0 in
      sched n' (add32 (add32 (sigma1 (w 1%nat)) (w 6%nat))
                      (add32 (sigma0 (w 14%nat)) (w 15%nat)) :: rev_ws)
  end.

Definition round (st : list Z) (kw : Z * Z) : list Z :=
  match st with
  | [a; b; c; d; e; f; g; h] =>
      let t1 := add32 (add32 (add32 h (Sigma1 e)) (add32 (Ch e f g) (fst kw))) (snd kw) in
      let t2 := add32 (Sigma0 a) (Maj a b c) in
      [add32 t1 t2; a; b; c; add32 d t1; e; f; g]
  | _ => st
  end.

Fixpoint zip_add (xs ys : list Z) : list Z :=
  match xs, ys with
  | x :: xs', y :: ys' => add32 x y :: zip_add xs' ys'
  | _, _ => []
  end.

Definition compress (h : list Z) (block : list Z) : list Z :=
  let w := rev (sched 48 (rev (words 16 block))) in
  zip_add h (fold_left round (combine K w) h).

Fixpoint blocks (fuel : nat) (h : list Z) (bs : list Z) : list Z :=
  match fuel with
  | O => h
  | S f =>
      match bs with
      | [] => h
      | _ => blocks f (compress h (firstn 64 bs)) (skipn 64 bs)
      end
  end.

Definition digest (msg : list Z) : list Z :=
  let p := pad msg in
  flat_map (be_bytes 4) (blocks (length p) H0 p).

Definition hex_digit (d : Z) : ascii :=
  nth (Z.to_nat d) (list_ascii_of_string "0123456789abcdef") "0"%char.

Definition hex_of_bytes (bs : list Z) : string :=
  string_of_list_ascii
    (flat_map (fun b => [hex_digit (Z.shiftr b 4); hex_digit (Z.land b 0xf)]) bs).

(** [hashlib.sha256(data).hexdigest()] *)
Definition hexdigest (data : string) : string :=
  hex_of_bytes (digest (bytes_of_string data)).

End Sha256.


(** ** config/handle_token_config.py *)

(** The settings object. The attrs class declares nineteen fields; an
    instance without [__slots__] can be given further attributes after
    construction, and the token handler reads three that the class does
    not declare ([backup_token], [max_retry], [retry_delay]): those live
    in [extra_attrs], empty for every instance the class constructs. *)
Record HandleTokenConfig : Type := mkConfig {
  login_url : string;
  refresh_url : string;
  username : string;
  password : string;
  default_token : string;
  token_keyword : string;
  pool_size : Z;
  request_timeout : Z;
  refresh_token_check_interval : Z;
  expiry_time : Z;
  min_time_between_refreshes : Z;
  max_concurrent_refreshes : Z;
  refresh_failure_attempts_threshold : Z;
  auto_switch_backup_on_failure : bool;
  retry_delay_multiplier : Z;
  thread_pool_size : Z;
  general_request_retry_attempts : Z;
  token_headers : option (list (string * string));
  token_cache_cleanup_interval : Z;
  extra_attrs : gmap string pyval
}.

(** [HandleTokenConfig()]: every field at its default. *)
Definition default_config : HandleTokenConfig :=
  {| login_url := "default_login_url";
     refresh_url := "default_refresh_url";
     username := "default_username";
     password := "default_password";
     default_token := "";
     token_keyword := "token";
     pool_size := 5;
     request_timeout := 3;
     refresh_token_check_interval := 10;
     expiry_time := 7200;
     min_time_between_refreshes := 300;
     max_concurrent_refreshes := 5;
     refresh_failure_attempts_threshold := 10;
     auto_switch_backup_on_failure := false;
     retry_delay_multiplier := 2;
     thread_pool_size := 10;
     general_request_retry_attempts := 2;
     token_headers := None;
     token_cache_cleanup_interval := 3600;
     extra_attrs := ∅ |}.

(** The attribute names the class declares. *)
Definition HandleTokenConfig_fields : list string :=
  [ "login_url"; "refresh_url"; "username"; "password"; "default_token";
    "token_keyword"; "pool_size"; "request_timeout";
    "refresh_token_check_interval"; "expiry_time";
    "min_time_between_refreshes"; "max_concurrent_refreshes";
    "refresh_failure_attempts_threshold"; "auto_switch_backup_on_failure";
    "retry_delay_multiplier"; "thread_pool_size";
    "general_request_retry_attempts"; "token_headers";
    "token_cache_cleanup_interval" ].

(** *** load_config

    The settings file is read and decoded before any setting is looked
    at, so [load_config] is a function of what reading and decoding come
    to. A settings object is taken here as the dictionary of its
    attributes, each holding the JSON value it was given (the class
    validates and converts nothing). *)

#[local] Set Warnings "-register-all".

(** The values [json.loads] yields (numbers are integers here, as the
    times are). *)
Inductive json : Type :=
| JNull
| JBool (b : bool)
| JNumber (z : Z)
| JString (s : string)
| JArray (items : list json)
| JObject (members : list (string * json)).

(** What [open(...)], [f.read()] and [json.loads(...)] come to: one of
    them raises, or the text is a JSON object (its keys are strings and,
    after decoding, distinct), or it is some other JSON value. *)
Inductive ConfigFile : Type :=
| FileRaises (e : exn)
| FileObject (obj : gmap string json)
| FileValue (v : json).

(** The defaults of the nineteen [attr.ib]s. *)
Definition default_settings : gmap string json :=
  list_to_map
    [ ("login_url", JString "default_login_url");
      ("refresh_url", JString "default_refresh_url");
      ("username", JString "default_username");
      ("password", JString "default_password");
      ("default_token", JString "");
      ("token_keyword", JString "token");
      ("pool_size", JNumber 5);
      ("request_timeout", JNumber 3);
      ("refresh_token_check_interval", JNumber 10);
      ("expiry_time", JNumber 7200);
      ("min_time_between_refreshes", JNumber 300);
      ("max_concurrent_refreshes", JNumber 5);
      ("refresh_failure_attempts_threshold", JNumber 10);
      ("auto_switch_backup_on_failure", JBool false);
      ("retry_delay_multiplier", JNumber 2);
      ("thread_pool_size", JNumber 10);
      ("general_request_retry_attempts", JNumber 2);
      ("token_headers", JNull);
      ("token_cache_cleanup_interval", JNumber 3600) ].

Definition is_field (name : string) : bool :=
  existsb (String.eqb name) HandleTokenConfig_fields.

(** [HandleTokenConfig] called with the keywords [kwargs], that is the
    [__init__] that attrs generates: a keyword that is not a declared
    field raises [TypeError]; a field that is not given takes its
    default. *)
Definition HandleTokenConfig_init (kwargs : gmap string json)
  : exn + gmap string json :=
  if forallb is_field (map fst (map_to_list kwargs))
  then inr (kwargs ∪ default_settings)
  else inl TypeError.

(** The [try] of [load_config]. Unpacking a value that is not a mapping
    into keywords raises [TypeError]. *)
Definition load_config_try (file : ConfigFile) : exn + gmap string json :=
  match file with
  | FileRaises e => inl e
  | FileObject obj => HandleTokenConfig_init obj
  | FileValue _ => inl TypeError
  end.

(** [load_config()]: the settings object it returns, and the exception it
    logged when it fell back to [HandleTokenConfig()]. The function is
    memoized and the module calls it once, on import, so the file is read
    once. *)
Definition load_config (file : ConfigFile) : gmap string json * option exn :=
  match load_config_try file with
  | inr settings => (settings, None)
  | inl e => (default_settings, Some e)
  end.

(** ** The objects of core/token_handler.py *)

(** The data attributes [DefaultTokenProvider.__init__] sets (the lock and
    the executor of the provider hold no data the methods read). *)
Record DefaultTokenProviderObj : Type := mkProvider {
  _current_token : pyval;
  _token_expiry_time : Z;
  _last_refresh_timestamp : Z;
  _refresh_failure_count : Z
}.

(** The attributes of a [TokenManager]. [_on_token_updated] records
    whether a callback was given; [invalid] is the attribute the pool sets
    on a fetcher ([false] while it has not been set). *)
Record TokenManagerObj : Type := mkManager {
  _token_provider : nat;
  _cached_current_token : pyval;
  _on_token_updated : bool;
  _backup_token : pyval;
  invalid : bool
}.

(** [concurrent.futures.ThreadPoolExecutor]: the number of workers, the
    work items waiting in [_work_queue], and those a worker has taken and
    is running. *)
Record ThreadPoolExecutor : Type := mkExecutor {
  _max_workers : Z;
  _work_queue_qsize : Z;
  in_flight : Z
}.

Record TokenFetcherPoolObj : Type := mkPool {
  _token_fetchers : list nat;
  _concurrent_refresh_executor : ThreadPoolExecutor;
  _retry_count : Z;
  _max_retry : pyval
}.

(** ** The environment *)

Inductive Level : Type := ERROR | INFO | WARNING.

(** The log messages of the module, by the line that writes them. *)
Inductive LogMsg : Type :=
| MsgAutoRefreshError (e : exn)
| MsgConcurrentRefreshError (e : exn)
| MsgNetworkError
| MsgMalformedResponse
| MsgUnknownError (e : exn)
| MsgProviderSwitchedToBackup
| MsgManagerSwitchedToBackup
| MsgConcurrentLimit.

(** What the program does to the outside, in order. [CallRefreshToken]
    records that [refresh_token()] was called on a provider; [Notify]
    that the [on_token_updated] callback of a manager was called. *)
Inductive Event : Type :=
| Log (lvl : Level) (msg : LogMsg)
| Post (url : string) (current_token : pyval) (signature : string)
| CallRefreshToken (provider : nat)
| Notify (manager : nat) (token : pyval)
| Sleep (seconds : Z).

(** What [session.post(...)] followed by [response.json()] does: it
    raises, or it yields the JSON object of the response body (a body that
    is valid JSON but not an object is not modelled). *)
Inductive HttpOutcome : Type :=
| HttpRaises (e : exn)
| HttpJson (body : gmap string pyval).

(** The state of the program and of its environment. [loop_lag] is the
    event loop's part in [asyncio.gather]: between the failure of a
    gathered task and the moment the awaiting caller is resumed with the
    exception, the loop makes a few more passes, in which timers that
    have come due fire; [loop_lag w n] is the number of timers that fire
    in between, for a wait that begins with [n] events on the trace. *)
Record World : Type := mkWorld {
  clock : nat -> Z;
  ticks : nat;
  network : nat -> HttpOutcome;
  trace : list Event;
  providers : nat -> DefaultTokenProviderObj;
  managers : nat -> TokenManagerObj;
  pools : nat -> TokenFetcherPoolObj;
  generate_signature_cache : gmap nat string;
  get_token_cache : gmap nat pyval;
  loop_lag : nat -> nat
}.

Definition set_ticks (n : nat) (w : World) : World :=
  mkWorld (clock w) n (network w) (trace w) (providers w) (managers w)
          (pools w) (generate_signature_cache w) (get_token_cache w) (loop_lag w).
Definition set_trace (t : list Event) (w : World) : World :=
  mkWorld (clock w) (ticks w) (network w) t (providers w) (managers w)
          (pools w) (generate_signature_cache w) (get_token_cache w) (loop_lag w).
Definition set_providers (ps : nat -> DefaultTokenProviderObj) (w : World) : World :=
  mkWorld (clock w) (ticks w) (network w) (trace w) ps (managers w)
          (pools w) (generate_signature_cache w) (get_token_cache w) (loop_lag w).
Definition set_managers (ms : nat -> TokenManagerObj) (w : World) : World :=
  mkWorld (clock w) (ticks w) (network w) (trace w) (providers w) ms
          (pools w) (generate_signature_cache w) (get_token_cache w) (loop_lag w).
Definition set_pools (ps : nat -> TokenFetcherPoolObj) (w : World) : World :=
  mkWorld (clock w) (ticks w) (network w) (trace w) (providers w) (managers w)
          ps (generate_signature_cache w) (get_token_cache w) (loop_lag w).
Definition set_generate_signature_cache (c : gmap nat string) (w : World) : World :=
  mkWorld (clock w) (ticks w) (network w) (trace w) (providers w) (managers w)
          (pools w) c (get_token_cache w) (loop_lag w).
Definition set_get_token_cache (c : gmap nat pyval) (w : World) : World :=
  mkWorld (clock w) (ticks w) (network w) (trace w) (providers w) (managers w)
          (pools w) (generate_signature_cache w) c (loop_lag w).
Definition set_loop_lag (lag : nat -> nat) (w : World) : World :=
  mkWorld (clock w) (ticks w) (network w) (trace w) (providers w) (managers w)
          (pools w) (generate_signature_cache w) (get_token_cache w) lag.

Definition is_post (e : Event) : bool :=
  match e with Post _ _ _ => true | _ => false end.

(** The POSTs sent so far, newest first. *)
Definition posts (w : World) : list Event := List.filter is_post (trace w).

(** The calls of [refresh_token] on any provider so far. *)
Definition is_refresh_call (e : Event) : bool :=
  match e with CallRefreshToken _ => true | _ => false end.
Definition refresh_calls (w : World) : list Event :=
  List.filter is_refresh_call (trace w).

(** ** The monad of methods: state of the world, and exceptions *)

Definition M (A : Type) : Type := World -> (exn + A) * World.

Definition ret {A} (a : A) : M A := fun w => (inr a, w).
Definition raise {A} (e : exn) : M A := fun w => (inl e, w).
Definition bind {A B} (m : M A) (k : A -> M B) : M B :=
  fun w => match m w with
           | (inr a, w') => k a w'
           | (inl e, w') => (inl e, w')
           end.

(** [try: body except Exception as e: handler e]; the handler starts in
    the world the body left. *)
Definition try_except {A} (body : M A) (handler : exn -> M A) : M A :=
  fun w => match body w with
           | (inl e, w') => handler e w'
           | r => r
           end.

Declare Scope py_scope.
Delimit Scope py_scope with py.
Notation "'let*' x ':=' c 'in' k" := (bind c (fun x => k))
  (at level 10, x name, c at level 100, k at level 200) : py_scope.
Notation "c '>>' k" := (bind c (fun _ => k))
  (at level 100, k at level 200, right associativity) : py_scope.
Local Open Scope py_scope.

Definition gets {A} (f : World -> A) : M A := fun w => (inr (f w), w).
Definition modify (f : World -> World) : M unit := fun w => (inr tt, f w).

(** [time.time()] *)
Definition time_time : M Z :=
  fun w => (inr (clock w (ticks w)), set_ticks (S (ticks w)) w).

Definition emit (e : Event) : M unit :=
  modify (fun w => set_trace (e :: trace w) w).

Definition log (lvl : Level) (msg : LogMsg) : M unit := emit (Log lvl msg).

(** The POST of the refresh call and the decoding of its body: the
    request is recorded, and the outcome is the next one of the network. *)
Definition http_post (url : string) (tok : pyval) (sig : string)
  : M (gmap string pyval) :=
  let* n := gets (fun w => length (posts w)) in
  emit (Post url tok sig) >>
  let* o := gets (fun w => network w n) in
  match o with
  | HttpRaises e => raise e
  | HttpJson body => ret body
  end.

Definition get_provider (p : nat) : M DefaultTokenProviderObj :=
  gets (fun w => providers w p).
Definition put_provider (p : nat) (o : DefaultTokenProviderObj) : M unit :=
  modify (fun w => set_providers (<[p := o]> (providers w)) w).
Definition get_manager (m : nat) : M TokenManagerObj :=
  gets (fun w => managers w m).
Definition put_manager (m : nat) (o : TokenManagerObj) : M unit :=
  modify (fun w => set_managers (<[m := o]> (managers w)) w).
Definition get_pool (p : nat) : M TokenFetcherPoolObj :=
  gets (fun w => pools w p).
Definition put_pool (p : nat) (o : TokenFetcherPoolObj) : M unit :=
  modify (fun w => set_pools (<[p := o]> (pools w)) w).

(** [@lru_cache(maxsize=None)] on a method: the cache is keyed by the
    arguments of the call, and [self] is the only one. A hit returns the
    stored result and runs nothing; a miss runs the body and stores what
    it returns; a call that raises stores nothing. *)
Definition lru_cache {A} (cache : World -> gmap nat A)
    (set_cache : gmap nat A -> World -> World)
    (body : nat -> M A) (self : nat) : M A :=
  let* c := gets cache in
  match c !! self with
  | Some r => ret r
  | None =>
      let* r := body self in
      modify (fun w => set_cache (<[self := r]> (cache w)) w) >>
      ret r
  end.

(** Reading an attribute of the settings object that the class does not
    declare. *)
Definition config_extra (cfg : HandleTokenConfig) (name : string) : M pyval :=
  match extra_attrs cfg !! name with
  | Some v => ret v
  | None => raise (AttributeError name)
  end.

(** ** class TokenProvider

    The interface: three methods, dispatched on the class of the provider
    object. *)
Module TokenProvider.

Class t : Type := {
  get_token : nat -> M pyval;
  is_token_expired : nat -> M bool;
  refresh_token : nat -> M pyval
}.

(** The bodies of the interface itself: each raises [NotImplementedError].
    [DefaultTokenProvider] overrides none of them, so these are the
    methods a [DefaultTokenProvider] object answers with. *)
Definition base : t :=
  {| get_token := fun _ => raise NotImplementedError;
     is_token_expired := fun _ => raise NotImplementedError;
     refresh_token := fun _ => raise NotImplementedError |}.

End TokenProvider.

(** ** class DefaultTokenProvider(TokenProvider) *)
Module DefaultTokenProvider.
Section Methods.

(** The module-level settings object, and the methods the provider object
    answers with for the three names of the interface. *)
Variable handle_token_config : HandleTokenConfig.
Context {dispatch : TokenProvider.t}.

(** [ThreadPoolExecutor(max_workers=n)] raises [ValueError] unless [n] is
    positive. *)
Definition new_executor (max_workers : Z) : M ThreadPoolExecutor :=
  if max_workers <=? 0 then raise ValueError
  else ret (mkExecutor max_workers 0 0).

Definition __init__ (self : nat) : M unit :=
  let* now := time_time in
  put_provider self
    {| _current_token := PyStr (default_token handle_token_config);
       _token_expiry_time := now + expiry_time handle_token_config;
       _last_refresh_timestamp := 0;
       _refresh_failure_count := 0 |} >>
  let* _ := new_executor (thread_pool_size handle_token_config) in
  ret tt.

(** [token.encode()]: only a [str] has the method. *)
Definition encode (v : pyval) : M string :=
  match v with
  | PyStr s => ret s
  | _ => raise (AttributeError "encode")
  end.

Definition generate_signature_body (self : nat) : M string :=
  let* p := get_provider self in
  let* data_to_hash := encode (_current_token p) in
  ret (Sha256.hexdigest data_to_hash).

(** The method as decorated with [@lru_cache(maxsize=None)]. *)
Definition generate_signature : nat -> M string :=
  lru_cache generate_signature_cache set_generate_signature_cache
            generate_signature_body.

(** [is_token_expired() or (time.time() - last > min_time)]: the clock is
    read only when the first operand is false. *)
Definition _should_refresh_token (self : nat) : M bool :=
  let* expired := TokenProvider.is_token_expired self in
  if expired then ret true
  else
    let* now := time_time in
    let* p := get_provider self in
    ret (now - _last_refresh_timestamp p
         >? min_time_between_refreshes handle_token_config).

Definition _update_current_token (self : nat) (new_token : pyval) : M unit :=
  let* t_expiry := time_time in
  let* t_refresh := time_time in
  put_provider self
    {| _current_token := new_token;
       _token_expiry_time := t_expiry + expiry_time handle_token_config;
       _last_refresh_timestamp := t_refresh;
       _refresh_failure_count := 0 |}.

(** The branch of the [isinstance] chain an exception takes. *)
Definition classify (e : exn) : LogMsg :=
  match e with
  | ClientError => MsgNetworkError
  | ValueError => MsgMalformedResponse
  | _ => MsgUnknownError e
  end.

Definition _handle_error (e : exn) : M unit :=
  log ERROR (MsgAutoRefreshError e) >>
  log ERROR (classify e).

(** ['error' in response_json or token_keyword not in response_json] *)
Definition response_is_failure (response_json : gmap string pyval) : bool :=
  bool_decide (is_Some (response_json !! "error"))
  || negb (bool_decide (is_Some (response_json !! token_keyword handle_token_config))).

(** The suite of [if needs_refresh:]: the signature, the POST, the check
    of the response and, when it passes, the update of the token. *)
Definition refresh_request (self : nat) : M pyval :=
  let* signature := generate_signature self in
  let* p := get_provider self in
  let* response_json :=
    http_post (refresh_url handle_token_config) (_current_token p) signature in
  if response_is_failure response_json then raise ValueError
  else
    match response_json !! token_keyword handle_token_config with
    | Some new_token =>
        _update_current_token self new_token >> ret new_token
    | None => raise (KeyError (token_keyword handle_token_config))
    end.

(** The suite of the [try] of [_async_refresh_token]. *)
Definition refresh_try (self : nat) : M pyval :=
  let* needs_refresh := _should_refresh_token self in
  if needs_refresh then refresh_request self
  else
    let* p := get_provider self in
    ret (_current_token p).

(** The suite of the [except], up to the call that starts over. *)
Definition refresh_except (self : nat) (e : exn) : M unit :=
  _handle_error e >>
  let* p := get_provider self in
  if _refresh_failure_count p
     >=? refresh_failure_attempts_threshold handle_token_config then
    if auto_switch_backup_on_failure handle_token_config then
      let* backup := config_extra handle_token_config "backup_token" in
      if truthy backup then
        let* now := time_time in
        let* p := get_provider self in
        put_provider self
          {| _current_token := backup;
             _token_expiry_time := now + expiry_time handle_token_config;
             _last_refresh_timestamp := _last_refresh_timestamp p;
             _refresh_failure_count := _refresh_failure_count p |} >>
        log INFO MsgProviderSwitchedToBackup
      else ret tt
    else ret tt
  else ret tt.

(** [_async_refresh_token]. The method calls itself after every failure;
    [depth] is the number of nested calls the interpreter still allows,
    and the call that exceeds it raises [RecursionError]. *)
Fixpoint _async_refresh_token (depth : nat) (self : nat) : M pyval :=
  match depth with
  | O => raise RecursionError
  | S depth' =>
      try_except (refresh_try self)
                 (fun e => refresh_except self e >>
                           _async_refresh_token depth' self)
  end.

End Methods.
End DefaultTokenProvider.

(** A number where Python needs one ([<] against an [int], the delay of
    [asyncio.sleep]): [bool] counts as [int], anything else raises. *)
Definition as_number (v : pyval) : M Z :=
  match v with
  | PyInt z => ret z
  | PyBool b => ret (if b then 1 else 0)
  | _ => raise TypeError
  end.

(** [provider.refresh_token()], as a caller of the interface invokes it. *)
Definition provider_refresh_token {dispatch : TokenProvider.t} (p : nat) : M pyval :=
  emit (CallRefreshToken p) >> TokenProvider.refresh_token p.

(** The attribute names of a [DefaultTokenProvider] object: what
    [__init__] sets on the instance, what the class body defines, and what
    its base class defines. *)
Definition DefaultTokenProvider_instance_attrs : list string :=
  [ "_current_token"; "_token_expiry_time"; "_last_refresh_timestamp";
    "_refresh_failure_count"; "_token_lock"; "_executor" ].
Definition DefaultTokenProvider_class_attrs : list string :=
  [ "__init__"; "generate_signature"; "_async_refresh_token";
    "_should_refresh_token"; "_update_current_token"; "_handle_error" ].
Definition TokenProvider_class_attrs : list string :=
  [ "get_token"; "is_token_expired"; "refresh_token" ].

Definition provider_hasattr (name : string) : bool :=
  existsb (String.eqb name)
    (DefaultTokenProvider_instance_attrs ++ DefaultTokenProvider_class_attrs
     ++ TokenProvider_class_attrs).

(** Looking [name] up on a provider object: [AttributeError] when neither
    the instance nor a class of it has the name. *)
Definition provider_attr (name : string) : M unit :=
  if provider_hasattr name then ret tt else raise (AttributeError name).

(** ** class TokenManager *)
Module TokenManager.
Section Methods.

Variable handle_token_config : HandleTokenConfig.
Context {dispatch : TokenProvider.t}.

(** [__init__]. The expression [self._token_provider.config] is an
    attribute lookup on the provider; had it a value, that would be a
    settings object, for which the module-level one stands here. *)
Definition __init__ (self token_provider : nat) (on_token_updated : bool)
  : M unit :=
  let* p := get_provider token_provider in
  let cached :=
    if negb (truthy (_current_token p)) then PyNone else _current_token p in
  provider_attr "config" >>
  let* b := config_extra handle_token_config "backup_token" in
  let backup := if negb (is_None b) then b else PyStr "" in
  put_manager self
    {| _token_provider := token_provider;
       _cached_current_token := cached;
       _on_token_updated := on_token_updated;
       _backup_token := backup;
       invalid := false |}.

Definition _handle_error (e : exn) : M unit :=
  log ERROR (MsgAutoRefreshError e) >>
  log ERROR (DefaultTokenProvider.classify e).

Definition set_cached (self : nat) (tok : pyval) : M unit :=
  let* m := get_manager self in
  put_manager self
    {| _token_provider := _token_provider m;
       _cached_current_token := tok;
       _on_token_updated := _on_token_updated m;
       _backup_token := _backup_token m;
       invalid := invalid m |}.

(** The body of [get_token]. [self._token_provider.is_token_expired()] is
    the method of the provider, and it is called only when the cache is
    not [None]. *)
Definition get_token_body (self : nat) : M pyval :=
  let* m := get_manager self in
  let* stale :=
    (if is_None (_cached_current_token m) then ret true
     else TokenProvider.is_token_expired (_token_provider m)) in
  (if stale then
     try_except
       (let* tok := provider_refresh_token (_token_provider m) in
        set_cached self tok)
       (fun e =>
          _handle_error e >>
          let* m := get_manager self in
          if truthy (_backup_token m) then
            set_cached self (_backup_token m) >>
            log INFO MsgManagerSwitchedToBackup
          else ret tt)
   else ret tt) >>
  let* m := get_manager self in
  ret (_cached_current_token m).

(** The method as decorated with [@lru_cache(maxsize=None)]. *)
Definition get_token : nat -> M pyval :=
  lru_cache get_token_cache set_get_token_cache get_token_body.

(** [time.time() > expiry if expiry else True] *)
Definition is_token_expired (self : nat) : M bool :=
  let* m := get_manager self in
  let* p := get_provider (_token_provider m) in
  if negb (_token_expiry_time p =? 0) then
    let* now := time_time in
    ret (now >? _token_expiry_time p)
  else ret true.

Definition refresh_token (self : nat) : M pyval :=
  let* m := get_manager self in
  let* new_token := provider_refresh_token (_token_provider m) in
  let* m := get_manager self in
  (if truthy new_token && _on_token_updated m
   then emit (Notify self new_token) else ret tt) >>
  ret new_token.

Definition manual_refresh_token (self : nat) : M pyval := refresh_token self.

(** One pass of the [while True] of [_auto_refresh_token]: the test, the
    refresh under its [try], and the [await asyncio.sleep(...)], whose
    argument [self._token_provider.config.refresh_token_check_interval]
    is evaluated first and outside the [try]. [depth] is the number of
    nested calls available to the provider's refresh. *)
Definition auto_refresh_pass (depth : nat) (self : nat) : M unit :=
  let* expired := is_token_expired self in
  (if expired then
     try_except
       (let* m := get_manager self in
        let* new_token :=
          DefaultTokenProvider._async_refresh_token
            handle_token_config depth (_token_provider m) in
        if truthy new_token then
          set_cached self new_token >>
          let* m := get_manager self in
          if _on_token_updated m then emit (Notify self new_token) else ret tt
        else ret tt)
       (fun e => _handle_error e)
   else ret tt) >>
  provider_attr "config" >>
  emit (Sleep (refresh_token_check_interval handle_token_config)).

(** [_auto_refresh_token]: the loop, for at most [passes] passes (the
    loop has no exit of its own). *)
Fixpoint _auto_refresh_token (depth passes : nat) (self : nat) : M unit :=
  match passes with
  | O => ret tt
  | S passes' =>
      auto_refresh_pass depth self >>
      _auto_refresh_token depth passes' self
  end.

End Methods.
End TokenManager.

(** ** class TokenFetcherPool *)
Module TokenFetcherPool.
Section Methods.

Variable handle_token_config : HandleTokenConfig.
Context {dispatch : TokenProvider.t}.

(** [[TokenManager(token_provider) for _ in range(n)]], the new managers
    being placed at the given addresses. *)
Fixpoint new_managers (token_provider : nat) (addrs : list nat) : M (list nat) :=
  match addrs with
  | [] => ret []
  | a :: rest =>
      TokenManager.__init__ handle_token_config a token_provider false >>
      let* ms := new_managers token_provider rest in
      ret (a :: ms)
  end.

(** [__init__]. [token_provider] is the address of the provider that
    [DefaultTokenProvider()] creates and [fetchers] those of the managers;
    [token_provider.config.pool_size] is evaluated first, as the argument
    of [range]. *)
Definition __init__ (self token_provider : nat) (fetchers : list nat) : M unit :=
  DefaultTokenProvider.__init__ handle_token_config token_provider >>
  provider_attr "config" >>
  let n := pool_size handle_token_config in
  let* ms := new_managers token_provider (firstn (Z.to_nat n) fetchers) in
  provider_attr "config" >>
  let* ex := DefaultTokenProvider.new_executor (Z.max 2 (n / 2)) in
  let* max_retry := config_extra handle_token_config "max_retry" in
  put_pool self
    {| _token_fetchers := ms;
       _concurrent_refresh_executor := ex;
       _retry_count := 0;
       _max_retry := max_retry |}.

(** The loop of [get_token_fetcher] over the fetchers that remain. *)
Fixpoint scan (fetchers : list nat) : M (option nat) :=
  match fetchers with
  | [] => ret None
  | fetcher :: rest =>
      let* expired := TokenManager.is_token_expired fetcher in
      if negb expired then ret (Some fetcher) else scan rest
  end.

Definition get_token_fetcher (self : nat) : M (option nat) :=
  let* pl := get_pool self in
  scan (_token_fetchers pl).

Definition _handle_error (e : exn) : M unit :=
  log ERROR (MsgConcurrentRefreshError e) >>
  log ERROR (DefaultTokenProvider.classify e).

Definition release_token_fetcher (self fetcher : nat) : M unit :=
  let* pl := get_pool self in
  if existsb (Nat.eqb fetcher) (_token_fetchers pl) then ret tt
  else
    try_except (TokenManager.refresh_token fetcher >> ret tt)
               (fun e => _handle_error e) >>
    let* pl := get_pool self in
    put_pool self
      {| _token_fetchers := _token_fetchers pl ++ [fetcher];
         _concurrent_refresh_executor := _concurrent_refresh_executor pl;
         _retry_count := _retry_count pl;
         _max_retry := _max_retry pl |}.

(** [_work_queue.qsize() < _max_workers * 2] *)
Definition _can_refresh_concurrently (self : nat) : M bool :=
  let* pl := get_pool self in
  let ex := _concurrent_refresh_executor pl in
  ret (_work_queue_qsize ex <? _max_workers ex * 2).

Definition mark_invalid (fetcher : nat) : M unit :=
  let* m := get_manager fetcher in
  put_manager fetcher
    {| _token_provider := _token_provider m;
       _cached_current_token := _cached_current_token m;
       _on_token_updated := _on_token_updated m;
       _backup_token := _backup_token m;
       invalid := true |}.

(** The coroutine [_async_refresh_token(fetcher)] has one point where it
    gives up control, [await asyncio.sleep(seconds)]. A task runs from
    its start to that point or to its end. *)
Inductive TaskStep : Type :=
| Finished (result : pyval)
| Sleeping (seconds : Z).

(** From the start of the coroutine to the [await], or to its [return]. *)
Definition task_start (self fetcher : nat) : M TaskStep :=
  try_except
    (let* r := TokenManager.refresh_token fetcher in ret (Finished r))
    (fun e =>
       _handle_error e >>
       mark_invalid fetcher >>
       let* pl := get_pool self in
       let* max_retry := as_number (_max_retry pl) in
       if _retry_count pl <? max_retry then
         let* d := config_extra handle_token_config "retry_delay" in
         let* seconds := as_number d in
         emit (Sleep seconds) >>
         ret (Sleeping seconds)
       else ret (Finished PyNone)).

(** From the [await] to the end: the retry, outside of any [try]. *)
Definition task_resume (self fetcher : nat) : M pyval :=
  let* pl := get_pool self in
  put_pool self
    {| _token_fetchers := _token_fetchers pl;
       _concurrent_refresh_executor := _concurrent_refresh_executor pl;
       _retry_count := _retry_count pl + 1;
       _max_retry := _max_retry pl |} >>
  TokenManager.refresh_token fetcher.

(** A task keeps its exception: running it never raises into the loop. *)
Definition settle {A} (m : M A) : M (exn + A) :=
  fun w => let (r, w') := m w in (inr r, w').

(** [asyncio.gather] of the tasks, on the event loop. The tasks start in
    the order of the list and each runs to its first [await]. *)
Fixpoint start_all (self : nat) (fetchers : list nat)
  : M (list (nat * (exn + TaskStep))) :=
  match fetchers with
  | [] => ret []
  | f :: rest =>
      let* r := settle (task_start self f) in
      let* rs := start_all self rest in
      ret ((f, r) :: rs)
  end.

(** [asyncio.sleep] of a delay that is not positive only yields to the
    loop; of a positive delay, it waits for a timer. *)
Definition waits_for_timer (seconds : Z) : bool := 0 <? seconds.

(** Whether the caller of [gather] has been resumed with the exception
    of a task: [pending] is [None] while no task has failed, and after
    the first failure the number of timers that still fire before the
    caller is resumed. *)
Definition delivered (pending : option nat) : bool :=
  match pending with
  | Some O => true
  | _ => false
  end.

(** The tasks that sleep are resumed in the order in which they went to
    sleep. A task that has only yielded runs in the next pass of the
    loop, before the caller of [gather] can be resumed. A task that
    waits for a timer runs when the timer fires (the timers, set one
    after the other for the same delay, fire in the order they were
    set), unless the caller has been resumed by then: [gather] hands the
    first exception to its caller without cancelling the other tasks, so
    those still asleep at that moment are not run within the call. *)
Fixpoint resume_all (self : nat) (lag : nat) (pending : option nat)
    (started : list (nat * (exn + TaskStep))) : M (list (exn + pyval)) :=
  match started with
  | [] => ret []
  | (f, inr (Sleeping seconds)) :: rest =>
      if waits_for_timer seconds && delivered pending
      then resume_all self lag pending rest
      else
        let* r := settle (task_resume self f) in
        let pending' :=
          match pending, r with
          | Some k, _ => Some (Nat.pred k)
          | None, inl _ => Some lag
          | None, inr _ => None
          end in
        let* rs := resume_all self lag pending' rest in
        ret (r :: rs)
  | _ :: rest => resume_all self lag pending rest
  end.

Definition first_exception {A} (rs : list (exn + A)) : option exn :=
  match List.filter (fun r => match r with inl _ => true | inr _ => false end) rs with
  | inl e :: _ => Some e
  | _ => None
  end.

(** The result of awaiting the gathered tasks: the exception of the task
    that was first to end with one, if any did; the caller is resumed
    with it [loop_lag] timers after that task has failed. When no task
    fails, the caller is resumed once all have ended. No task other
    than the gathered ones is taken to run in between. *)
Definition gather (self : nat) (fetchers : list nat) : M unit :=
  let* started := start_all self fetchers in
  let* lag := gets (fun w => loop_lag w (length (trace w))) in
  let pending :=
    match first_exception (map snd started) with
    | Some _ => Some lag
    | None => None
    end in
  let* resumed := resume_all self lag pending started in
  match first_exception (map snd started), first_exception resumed with
  | Some e, _ => raise e
  | None, Some e => raise e
  | None, None => ret tt
  end.

Definition refresh_token_concurrently (self : nat) : M unit :=
  let* ok := _can_refresh_concurrently self in
  if ok then
    let* pl := get_pool self in
    gather self (_token_fetchers pl)
  else log WARNING MsgConcurrentLimit.

End Methods.
End TokenFetcherPool.

(** ** The provider the specification describes

    [DefaultTokenProvider] defines none of [get_token],
    [is_token_expired] and [refresh_token]: it inherits the bodies that
    raise, and no other class of the repository overrides them. The
    methods below are what section 4.1 of the specification says these
    three do; they serve to run the code of the repository where it calls
    them. *)
Module SpecProvider.
Section Methods.

Variable handle_token_config : HandleTokenConfig.

(** Modelled from the spec: [is_token_expired] of a provider, which
    [DefaultTokenProvider] lacks. "isTokenExpired(): true when current
    wall-clock time exceeds expiresAt, or when no token has ever been
    obtained." *)
Definition is_token_expired (self : nat) : M bool :=
  let* p := get_provider self in
  if truthy (_current_token p) then
    let* now := time_time in
    ret (now >? _token_expiry_time p)
  else ret true.

(** Modelled from the spec: [get_token] of a provider, which
    [DefaultTokenProvider] lacks. "getToken() -> string": the value of
    the live token. *)
Definition get_token (self : nat) : M pyval :=
  let* p := get_provider self in
  ret (_current_token p).

(** The class with these two methods and no [refresh_token] of its own. *)
Definition expiry_only : TokenProvider.t :=
  {| TokenProvider.get_token := get_token;
     TokenProvider.is_token_expired := is_token_expired;
     TokenProvider.refresh_token := fun _ => raise NotImplementedError |}.

(** Modelled from the spec: [refresh_token] of a provider, which
    [DefaultTokenProvider] lacks. "refreshToken() -> string
    (blocking/synchronous variant)" of the asynchronous refresh;
    [depth] is the number of nested calls available to it. *)
Definition refresh_token (depth : nat) (self : nat) : M pyval :=
  DefaultTokenProvider._async_refresh_token
    handle_token_config (dispatch := expiry_only) depth self.

Definition dispatch (depth : nat) : TokenProvider.t :=
  {| TokenProvider.get_token := get_token;
     TokenProvider.is_token_expired := is_token_expired;
     TokenProvider.refresh_token := refresh_token depth |}.

End Methods.
End SpecProvider.

(** Modelled from the spec: the admission test of the bulk refresh.
    "the pool checks that the executor's queued-plus-in-flight work is
    below `2 × maxConcurrentRefreshes`". *)
Definition within_refresh_budget (cfg : HandleTokenConfig)
    (ex : ThreadPoolExecutor) : bool :=
  _work_queue_qsize ex + in_flight ex <? 2 * max_concurrent_refreshes cfg.

(** ** Worlds to run the methods in *)

Definition no_provider : DefaultTokenProviderObj := mkProvider PyNone 0 0 0.
Definition no_manager : TokenManagerObj := mkManager 0 PyNone false PyNone false.
Definition no_pool : TokenFetcherPoolObj :=
  mkPool [] (mkExecutor 0 0 0) 0 PyNone.

(** A world with nothing in it yet: a clock, a network, no objects,
    empty caches, and an event loop that resumes the caller of [gather]
    before any further timer fires. *)
Definition initial_world (clk : nat -> Z) (net : nat -> HttpOutcome) : World :=
  {| clock := clk; ticks := 0; network := net; trace := [];
     providers := fun _ => no_provider;
     managers := fun _ => no_manager;
     pools := fun _ => no_pool;
     generate_signature_cache := ∅;
     get_token_cache := ∅;
     loop_lag := fun _ => 0%nat |}.

Definition with_provider (a : nat) (o : DefaultTokenProviderObj) (w : World) : World :=
  set_providers (<[a := o]> (providers w)) w.
Definition with_manager (a : nat) (o : TokenManagerObj) (w : World) : World :=
  set_managers (<[a := o]> (managers w)) w.
Definition with_pool (a : nat) (o : TokenFetcherPoolObj) (w : World) : World :=
  set_pools (<[a := o]> (pools w)) w.

(** The world with an event loop that lets [lag] more timers fire before
    it resumes the caller of [gather]. *)
Definition with_loop_lag (lag : nat) (w : World) : World :=
  set_loop_lag (fun _ => lag) w.

(** The settings with a backup token, a retry budget and a retry delay
    added to the object after its construction. *)
Definition with_extras (cfg : HandleTokenConfig) (backup : string)
    (max_retry retry_delay : Z) : HandleTokenConfig :=
  {| login_url := login_url cfg;
     refresh_url := refresh_url cfg;
     username := username cfg;
     password := password cfg;
     default_token := default_token cfg;
     token_keyword := token_keyword cfg;
     pool_size := pool_size cfg;
     request_timeout := request_timeout cfg;
     refresh_token_check_interval := refresh_token_check_interval cfg;
     expiry_time := expiry_time cfg;
     min_time_between_refreshes := min_time_between_refreshes cfg;
     max_concurrent_refreshes := max_concurrent_refreshes cfg;
     refresh_failure_attempts_threshold := refresh_failure_attempts_threshold cfg;
     auto_switch_backup_on_failure := auto_switch_backup_on_failure cfg;
     retry_delay_multiplier := retry_delay_multiplier cfg;
     thread_pool_size := thread_pool_size cfg;
     general_request_retry_attempts := general_request_retry_attempts cfg;
     token_headers := token_headers cfg;
     token_cache_cleanup_interval := token_cache_cleanup_interval cfg;
     extra_attrs :=
       <["backup_token" := PyStr backup]>
         (<["max_retry" := PyInt max_retry]>
            (<["retry_delay" := PyInt retry_delay]> (extra_attrs cfg))) |}.

(** The settings of a file that sets the failure threshold, the switch to
    the backup and the number of concurrent refreshes. *)
Definition with_policy (cfg : HandleTokenConfig) (threshold : Z)
    (auto_switch : bool) (max_concurrent : Z) : HandleTokenConfig :=
  {| login_url := login_url cfg;
     refresh_url := refresh_url cfg;
     username := username cfg;
     password := password cfg;
     default_token := default_token cfg;
     token_keyword := token_keyword cfg;
     pool_size := pool_size cfg;
     request_timeout := request_timeout cfg;
     refresh_token_check_interval := refresh_token_check_interval cfg;
     expiry_time := expiry_time cfg;
     min_time_between_refreshes := min_time_between_refreshes cfg;
     max_concurrent_refreshes := max_concurrent;
     refresh_failure_attempts_threshold := threshold;
     auto_switch_backup_on_failure := auto_switch;
     retry_delay_multiplier := retry_delay_multiplier cfg;
     thread_pool_size := thread_pool_size cfg;
     general_request_retry_attempts := general_request_retry_attempts cfg;
     token_headers := token_headers cfg;
     token_cache_cleanup_interval := token_cache_cleanup_interval cfg;
     extra_attrs := extra_attrs cfg |}.

(** A refresh endpoint that always answers [{"error": "invalid"}]. *)
Definition error_body : gmap string pyval := {[ "error" := PyStr "invalid" ]}.
Definition always_error : nat -> HttpOutcome := fun _ => HttpJson error_body.

(** ** Vocabulary of the statements *)

(** The expiry time a fetcher looks at: that of the provider it holds. *)
Definition fetcher_expiry (w : World) (f : nat) : Z :=
  _token_expiry_time (providers w (_token_provider (managers w f))).

(** Calling [is_token_expired()] on each fetcher of a list in turn. *)
Fixpoint ask_all (fetchers : list nat) : M (list bool) :=
  match fetchers with
  | [] => ret []
  | f :: rest =>
      let* b := TokenManager.is_token_expired f in
      let* bs := ask_all rest in
      ret (b :: bs)
  end.

(** [now > expiry if expiry else True], as a value. *)
Definition expired_value (now expiry : Z) : bool :=
  if negb (expiry =? 0) then now >? expiry else true.

(** Whether the handler of a failed refresh switches the provider [p] to
    the backup token: the three conditions of the [except] suite. *)
Definition switches (cfg : HandleTokenConfig) (p : DefaultTokenProviderObj) : bool :=
  (_refresh_failure_count p >=? refresh_failure_attempts_threshold cfg)
  && auto_switch_backup_on_failure cfg
  && match extra_attrs cfg !! "backup_token" with
     | Some b => truthy b
     | None => false
     end.

(** A manager with its [invalid] attribute set to [b]. *)
Definition set_invalid (b : bool) (m : TokenManagerObj) : TokenManagerObj :=
  {| _token_provider := _token_provider m;
     _cached_current_token := _cached_current_token m;
     _on_token_updated := _on_token_updated m;
     _backup_token := _backup_token m;
     invalid := b |}.

(** The world with the [invalid] attribute of every manager set as
    [flags] says. *)
Definition mark_all (flags : nat -> bool) (w : World) : World :=
  set_managers (fun a => set_invalid (flags a) (managers w a)) w.

(** The provider and the world of the scenarios: one provider at address
    0 holding ["tok"], valid until 8000 and never refreshed; the clock
    stands at 1000. *)
Definition scenario_provider : DefaultTokenProviderObj :=
  {| _current_token := PyStr "tok"; _token_expiry_time := 8000;
     _last_refresh_timestamp := 0; _refresh_failure_count := 0 |}.
Definition scenario_world (net : nat -> HttpOutcome) : World :=
  with_provider 0 scenario_provider (initial_world (fun _ => 1000) net).

(** A manager of provider 0 with ["tok"] in its cache, no callback and no
    backup token. *)
Definition scenario_manager : TokenManagerObj :=
  {| _token_provider := 0; _cached_current_token := PyStr "tok";
     _on_token_updated := false; _backup_token := PyStr "";
     invalid := false |}.

(** A pool at address 0 of two such managers, at addresses 0 and 1, with
    the executor and the retry budget given. *)
Definition scenario_pool (ex : ThreadPoolExecutor) (max_retry : Z)
    (net : nat -> HttpOutcome) : World :=
  with_pool 0 (mkPool [0%nat; 1%nat] ex 0 (PyInt max_retry))
    (with_manager 1 scenario_manager
       (with_manager 0 scenario_manager (scenario_world net))).

(** A clock that reads 1000 once and 9000 from then on. *)
Definition clock_1000_then_9000 : nat -> Z :=
  fun n => if (n <? 1)%nat then 1000 else 9000.

(** [n] refresh calls on a provider, one after the other; each may nest
    [depth] calls. *)
Fixpoint refresh_many (cfg : HandleTokenConfig) {d : TokenProvider.t}
    (depth n : nat) (self : nat) : M (list pyval) :=
  match n with
  | O => ret []
  | S n' =>
      let* v := DefaultTokenProvider._async_refresh_token cfg depth self in
      let* vs := refresh_many cfg depth n' self in
      ret (v :: vs)
  end.

(** [extends w w']: the trace of [w'] is that of [w] with events added. *)
Definition extends (w w' : World) : Prop :=
  exists evs, trace w' = evs ++ trace w.

(** A computation that only adds events to the trace. *)
Definition appends {A} (m : M A) : Prop :=
  forall w, extends w (snd (m w)).


(** The calls of the [on_token_updated] callbacks so far. *)
Definition is_notify (ev : Event) : bool :=
  match ev with Notify _ _ => true | _ => false end.
Definition notifications (w : World) : list Event :=
  List.filter is_notify (trace w).

(** Whether [g] is one of [fetchers]. *)
Definition is_member (g : nat) (fetchers : list nat) : bool :=
  existsb (Nat.eqb g) fetchers.

(** The world a task leaves whose refresh of [f] has raised
    [NotImplementedError]: the call and the two log lines are on the
    trace, and [f] is marked invalid. *)
Definition failed_refresh (f : nat) (w : World) : World :=
  set_managers (<[f := set_invalid true (managers w f)]> (managers w))
    (set_trace
       (Log ERROR (MsgUnknownError NotImplementedError)
        :: Log ERROR (MsgConcurrentRefreshError NotImplementedError)
        :: CallRefreshToken (_token_provider (managers w f)) :: trace w) w).

(** What a run of failed refreshes over [fetchers] has done to the
    managers, the pools and the record of calls. *)
Definition all_failed (fetchers : list nat) (w w' : World) : Prop :=
  pools w' = pools w
  /\ providers w' = providers w
  /\ posts w' = posts w
  /\ (forall g, managers w' g
                = if is_member g fetchers
                  then set_invalid true (managers w g) else managers w g)
  /\ length (refresh_calls w')
     = (length fetchers + length (refresh_calls w))%nat.

(** How many of [n] tasks that went to sleep one after the other are
    resumed within a [gather] when each of them fails on being resumed:
    all of them if they have only yielded ([timers] is false); if they
    wait for timers, those whose timer fires before the caller is
    resumed, that is the first and [lag] more when none has failed yet,
    and [k] more when one has and [pending] is [Some k]. *)
Definition resumed_within (timers : bool) (lag : nat) (pending : option nat)
    (n : nat) : nat :=
  if timers then
    match pending with
    | None => Nat.min n (S lag)
    | Some k => Nat.min n k
    end
  else n.

(** [same_executors w w']: every pool has in [w'] the executor, with the
    queue, that it has in [w]. *)
Definition same_executors (w w' : World) : Prop :=
  forall p, _concurrent_refresh_executor (pools w' p)
            = _concurrent_refresh_executor (pools w p).

(** * Properties *)

(** ** The digest, on the test vectors of the standard *)

Example hexdigest_empty :
  Sha256.hexdigest "" = "e3b0c44298fc1c149afbf4c8996fb92427ae41e4649b934ca495991b7852b855".
Proof. vm_compute. reflexivity. Qed.

Example hexdigest_abc :
  Sha256.hexdigest "abc" = "ba7816bf8f01cfea414140de5dae2223b00361a396177a9cb410ff61f20015ad".
Proof. vm_compute. reflexivity. Qed.

Example hexdigest_two_blocks :
  Sha256.hexdigest "xxxxxxxxxxxxxxxxxxxxxxxxxxxxxxxxxxxxxxxxxxxxxxxxxxxxxxxxxxxx"
  = "42f2d97335669f86846b721a8aa58551a46564eaf6977e3b4836d4645e3e3ed2".
Proof. vm_compute. reflexivity. Qed.

(** ** Events are only ever added *)

Lemma extends_refl (w : World) : extends w w.
Proof. exists []. reflexivity. Qed.

Lemma extends_trans (w1 w2 w3 : World) :
  extends w1 w2 -> extends w2 w3 -> extends w1 w3.
Proof.
  intros [e1 H1] [e2 H2]. exists (e2 ++ e1).
  rewrite H2, H1, app_assoc. reflexivity.
Qed.

Lemma appends_ret {A} (a : A) : appends (ret a).
Proof. intros w. apply extends_refl. Qed.

Lemma appends_raise {A} (e : exn) : appends (@raise A e).
Proof. intros w. apply extends_refl. Qed.

Lemma appends_gets {A} (f : World -> A) : appends (gets f).
Proof. intros w. apply extends_refl. Qed.

Lemma appends_modify (f : World -> World) :
  (forall w, trace (f w) = trace w) -> appends (modify f).
Proof. intros H w. exists []. cbn. apply H. Qed.

Lemma appends_emit (e : Event) : appends (emit e).
Proof. intros w. exists [e]. reflexivity. Qed.

Lemma appends_time_time : appends time_time.
Proof. intros w. exists []. reflexivity. Qed.

Lemma appends_bind {A B} (m : M A) (k : A -> M B) :
  appends m -> (forall a, appends (k a)) -> appends (bind m k).
Proof.
  intros Hm Hk w. unfold bind. specialize (Hm w).
  destruct (m w) as [[e|a] w1]; cbn in Hm |- *; [exact Hm|].
  eapply extends_trans; [exact Hm | apply Hk].
Qed.

Lemma appends_try_except {A} (m : M A) (h : exn -> M A) :
  appends m -> (forall e, appends (h e)) -> appends (try_except m h).
Proof.
  intros Hm Hh w. unfold try_except. specialize (Hm w).
  destruct (m w) as [[e|a] w1]; cbn in Hm |- *; [|exact Hm].
  eapply extends_trans; [exact Hm | apply Hh].
Qed.

Lemma appends_settle {A} (m : M A) :
  appends m -> appends (TokenFetcherPool.settle m).
Proof.
  intros Hm w. unfold TokenFetcherPool.settle. specialize (Hm w).
  destruct (m w) as [r w1]. exact Hm.
Qed.

Create HintDb appends.
#[local] Hint Resolve appends_ret appends_raise appends_gets appends_emit
  appends_time_time appends_settle : appends.

(** Splits a computation along its binds, handlers and tests. *)
Ltac appends_step :=
  match goal with
  | |- appends (bind _ _) => apply appends_bind; [|intros]
  | |- appends (try_except _ _) => apply appends_try_except; [|intros]
  | |- appends (modify _) => apply appends_modify; intros; reflexivity
  | |- appends (if ?b then _ else _) => destruct b
  | |- appends (match ?x with _ => _ end) => destruct x
  | |- appends _ => solve [auto with appends]
  end.

Section PoolCalls.

Variable cfg : HandleTokenConfig.
Context {d : TokenProvider.t}.

(** The provider's own [refresh_token] is taken to add events to the
    trace and not to rewrite it. *)
Hypothesis refresh_token_appends :
  forall p : nat, appends (TokenProvider.refresh_token p).

Lemma manager_refresh_token_rest_appends (self p : nat) :
  appends
    (let* new_token := TokenProvider.refresh_token p in
     let* m := get_manager self in
     (if truthy new_token && _on_token_updated m
      then emit (Notify self new_token) else ret tt) >>
     ret new_token).
Proof.
  apply appends_bind; [apply refresh_token_appends|intros].
  unfold get_manager. repeat appends_step.
Qed.

(** A manager's [refresh_token()] records the call on its provider
    before anything else. *)
Lemma manager_refresh_token_calls (f : nat) (w : World) :
  exists evs,
    trace (snd (TokenManager.refresh_token f w))
    = evs ++ CallRefreshToken (_token_provider (managers w f)) :: trace w.
Proof.
  destruct (manager_refresh_token_rest_appends f (_token_provider (managers w f))
              (set_trace (CallRefreshToken (_token_provider (managers w f))
                          :: trace w) w)) as [evs H].
  exists evs. exact H.
Qed.

Lemma pool_handler_appends (self f : nat) (e : exn) :
  appends
    (TokenFetcherPool._handle_error e >>
     TokenFetcherPool.mark_invalid f >>
     let* pl := get_pool self in
     let* max_retry := as_number (_max_retry pl) in
     if _retry_count pl <? max_retry then
       let* dl := config_extra cfg "retry_delay" in
       let* seconds := as_number dl in
       emit (Sleep seconds) >> ret (TokenFetcherPool.Sleeping seconds)
     else ret (TokenFetcherPool.Finished PyNone)).
Proof.
  unfold TokenFetcherPool._handle_error, TokenFetcherPool.mark_invalid,
    log, get_manager, put_manager, get_pool, as_number, config_extra.
  repeat appends_step.
Qed.

Lemma task_start_calls (self f : nat) (w : World) :
  exists evs,
    trace (snd (TokenFetcherPool.task_start cfg self f w))
    = evs ++ CallRefreshToken (_token_provider (managers w f)) :: trace w.
Proof.
  unfold TokenFetcherPool.task_start, try_except, bind at 1.
  destruct (manager_refresh_token_calls f w) as [evs Hevs].
  destruct (TokenManager.refresh_token f w) as [[e|r] w1]; cbn in Hevs.
  - destruct (pool_handler_appends self f e w1) as [evs' H'].
    exists (evs' ++ evs). rewrite <- app_assoc, <- Hevs. exact H'.
  - exists evs. exact Hevs.
Qed.

Lemma refresh_calls_app (evs : list Event) (w w' : World) :
  trace w' = evs ++ trace w ->
  refresh_calls w' = List.filter is_refresh_call evs ++ refresh_calls w.
Proof.
  intros H. unfold refresh_calls. rewrite H. apply List.filter_app.
Qed.

(** Starting the tasks of a list of fetchers records at least one
    [refresh_token()] call for each of them. *)
Lemma start_all_calls (self : nat) (fetchers : list nat) :
  forall w : World,
    (length fetchers + length (refresh_calls w)
     <= length (refresh_calls
                  (snd (TokenFetcherPool.start_all cfg self fetchers w))))%nat.
Proof.
  induction fetchers as [|f rest IH]; intros w; [cbn; lia|].
  cbn [TokenFetcherPool.start_all]. unfold bind at 1.
  unfold TokenFetcherPool.settle at 1.
  destruct (task_start_calls self f w) as [evs Hevs].
  destruct (TokenFetcherPool.task_start cfg self f w) as [r w1]; cbn in Hevs.
  unfold bind at 1. specialize (IH w1).
  destruct (TokenFetcherPool.start_all cfg self rest w1) as [[e|rs] w2];
    cbn in IH |- *.
  all: assert (Hevs' : trace w1
                       = (evs ++ [CallRefreshToken (_token_provider (managers w f))])
                         ++ trace w)
         by (rewrite <- app_assoc; exact Hevs).
  all: rewrite (refresh_calls_app _ _ _ Hevs') in IH.
  all: rewrite List.filter_app, !length_app in IH; cbn in IH; lia.
Qed.

Lemma task_resume_appends (self f : nat) :
  appends (TokenFetcherPool.task_resume self f).
Proof.
  unfold TokenFetcherPool.task_resume, get_pool, put_pool.
  apply appends_bind; [auto with appends|intros pl].
  apply appends_bind; [apply appends_modify; intros; reflexivity|intros].
  unfold TokenManager.refresh_token, get_manager.
  apply appends_bind; [auto with appends|intros m].
  unfold provider_refresh_token.
  apply appends_bind.
  - apply appends_bind; [auto with appends|intros].
    apply refresh_token_appends.
  - intros. repeat appends_step.
Qed.

Lemma resume_all_appends (self : nat) (lag : nat)
    (started : list (nat * (exn + TokenFetcherPool.TaskStep))) :
  forall pending : option nat,
    appends (TokenFetcherPool.resume_all self lag pending started).
Proof.
  induction started as [|[f [e|[r|seconds]]] rest IH]; intros pending;
    cbn [TokenFetcherPool.resume_all]; auto with appends.
  destruct (TokenFetcherPool.waits_for_timer seconds
            && TokenFetcherPool.delivered pending); [apply IH|].
  apply appends_bind; [apply appends_settle, task_resume_appends|intros r].
  apply appends_bind; [apply IH|intros]. auto with appends.
Qed.

(** When the bulk refresh is admitted, at least one [refresh_token()]
    call per member of the pool is recorded by the time it ends. *)
Lemma admitted_refresh_calls_every_member (self : nat) (w : World) :
  let pl := pools w self in
  let ex := _concurrent_refresh_executor pl in
  (_work_queue_qsize ex <? _max_workers ex * 2) = true ->
  (length (_token_fetchers pl) + length (refresh_calls w)
   <= length (refresh_calls
                (snd (TokenFetcherPool.refresh_token_concurrently cfg self w))))%nat.
Proof.
  intros pl ex Hadm. subst pl ex.
  unfold TokenFetcherPool.refresh_token_concurrently,
    TokenFetcherPool._can_refresh_concurrently, bind at 1 2, get_pool, gets, ret.
  cbn beta zeta. rewrite Hadm.
  unfold bind at 1. cbn beta.
  unfold TokenFetcherPool.gather, bind at 1.
  pose proof (start_all_calls self (_token_fetchers (pools w self)) w) as Hs.
  destruct (TokenFetcherPool.start_all cfg self (_token_fetchers (pools w self)) w)
    as [[e|started] w1]; cbn in Hs |- *; [exact Hs|].
  unfold bind at 1. cbn beta iota.
  match goal with
  | |- context [TokenFetcherPool.resume_all self ?lag ?pending started w1] =>
      destruct (resume_all_appends self lag started pending w1) as [evs Hevs];
      destruct (TokenFetcherPool.resume_all self lag pending started w1)
        as [[e|resumed] w2]
  end; cbn in Hevs |- *.
  - rewrite (refresh_calls_app _ _ _ Hevs), length_app. lia.
  - assert (Hlen : (length (_token_fetchers (pools w self))
                    + length (refresh_calls w)
                    <= length (refresh_calls w2))%nat)
      by (rewrite (refresh_calls_app _ _ _ Hevs), length_app; lia).
    destruct (TokenFetcherPool.first_exception (map snd started));
      [exact Hlen|].
    destruct (TokenFetcherPool.first_exception resumed); exact Hlen.
Qed.

End PoolCalls.

Lemma base_refresh_token_appends (p : nat) :
  appends (TokenProvider.refresh_token (t := TokenProvider.base) p).
Proof. apply appends_raise. Qed.

(** ** Construction (C10) *)

Lemma provider_has_no_config : provider_hasattr "config" = false.
Proof. reflexivity. Qed.

Lemma settings_class_lacks_the_extras :
  forallb (fun name => negb (existsb (String.eqb name) HandleTokenConfig_fields))
          ["backup_token"; "max_retry"; "retry_delay"] = true
  /\ existsb (String.eqb "pool_size") HandleTokenConfig_fields = true.
Proof. split; reflexivity. Qed.

Lemma DefaultTokenProvider_init_result (cfg : HandleTokenConfig) (p : nat) (w : World) :
  exists w',
    DefaultTokenProvider.__init__ cfg p w
    = (if thread_pool_size cfg <=? 0 then inl ValueError else inr tt, w').
Proof.
  unfold DefaultTokenProvider.__init__, DefaultTokenProvider.new_executor,
    bind, time_time, put_provider, modify, ret, raise.
  destruct (thread_pool_size cfg <=? 0); eexists; reflexivity.
Qed.

(** C10. Whatever the settings, the provider object and the world,
    [TokenManager(p)] on a [DefaultTokenProvider] object raises
    [AttributeError] for the attribute [config], which no such object
    has, and leaves no manager behind; and [TokenFetcherPool()] never
    returns a pool: it raises [AttributeError] for [config] whenever the
    provider itself could be built (and [ValueError] from the provider's
    executor otherwise). The settings class does not declare [max_retry],
    so reading it from a freshly constructed settings object raises too. *)
Theorem constructors_always_raise :
  forall (cfg : HandleTokenConfig) (w : World),
    (forall (self p : nat) (cb : bool),
        TokenManager.__init__ cfg self p cb w = (inl (AttributeError "config"), w))
    /\ (forall (self p : nat) (fetchers : list nat),
           exists e w',
             TokenFetcherPool.__init__ cfg self p fetchers w = (inl e, w')
             /\ pools w' = pools w /\ managers w' = managers w
             /\ e = (if thread_pool_size cfg <=? 0
                     then ValueError else AttributeError "config"))
    /\ provider_hasattr "config" = false
    /\ existsb (String.eqb "max_retry") HandleTokenConfig_fields = false
    /\ config_extra default_config "max_retry" w
       = (inl (AttributeError "max_retry"), w).
Proof.
  intros cfg w. repeat split.
  intros self p fetchers.
  unfold TokenFetcherPool.__init__, DefaultTokenProvider.__init__,
    DefaultTokenProvider.new_executor, bind, time_time, put_provider,
    modify, ret, raise.
  destruct (thread_pool_size cfg <=? 0); simpl;
    eexists; eexists; repeat split; reflexivity.
Qed.

(** ** The scan of the pool (C8) *)

Lemma is_token_expired_run (f : nat) (w : World) :
  TokenManager.is_token_expired f w
  = if negb (fetcher_expiry w f =? 0)
    then (inr (clock w (ticks w) >? fetcher_expiry w f), set_ticks (S (ticks w)) w)
    else (inr true, w).
Proof.
  unfold TokenManager.is_token_expired, fetcher_expiry, bind, get_manager,
    get_provider, gets, time_time, ret.
  destruct (negb _); reflexivity.
Qed.

(** Asking a fetcher whether its token is expired changes nothing but the
    number of clock readings. *)
Lemma is_token_expired_frame (f : nat) (w : World) :
  exists b n, TokenManager.is_token_expired f w = (inr b, set_ticks n w)
              /\ (ticks w <= n)%nat.
Proof.
  rewrite is_token_expired_run.
  destruct (negb _).
  - eexists; eexists; split; [reflexivity | simpl; lia].
  - exists true, (ticks w). split; [destruct w; reflexivity | lia].
Qed.

Lemma fetcher_expiry_set_ticks (n : nat) (w : World) (f : nat) :
  fetcher_expiry (set_ticks n w) f = fetcher_expiry w f.
Proof. reflexivity. Qed.

Lemma scan_spec (fetchers : list nat) :
  forall w : World,
  exists r w',
    TokenFetcherPool.scan fetchers w = (inr r, w')
    /\ match r with
       | Some f =>
           exists before after w1,
             fetchers = before ++ f :: after
             /\ ask_all before w = (inr (repeat true (length before)), w1)
             /\ TokenManager.is_token_expired f w1 = (inr false, w')
       | None =>
           ask_all fetchers w = (inr (repeat true (length fetchers)), w')
       end.
Proof.
  induction fetchers as [|f rest IH]; intros w.
  - exists None, w. split; reflexivity.
  - cbn [TokenFetcherPool.scan ask_all]. unfold bind at 1.
    destruct (TokenManager.is_token_expired f w) as [[e|b] w1] eqn:Hf.
    + destruct (is_token_expired_frame f w) as (b' & n & Hrun & _). congruence.
    + destruct b; cbn [negb].
      * destruct (IH w1) as (r & w' & Hscan & Hr).
        exists r, w'. split; [exact Hscan|].
        destruct r as [g|].
        -- destruct Hr as (before & after & w2 & Heq & Hask & Hg).
           exists (f :: before), after, w2. split; [rewrite Heq; reflexivity|].
           split; [|exact Hg].
           cbn [ask_all length repeat]. unfold bind. rewrite Hf.
           fold (@bind (list bool) (list bool)). unfold bind. rewrite Hask. reflexivity.
        -- cbn [length repeat]. unfold bind. rewrite Hf.
           unfold bind in Hr |- *. rewrite Hr. reflexivity.
      * exists (Some f), w1. split; [reflexivity|].
        exists [], rest, w. repeat split. exact Hf.
Qed.

(** C8. [get_token_fetcher()] never raises. When it returns a fetcher,
    that fetcher is in the pool's list, every fetcher before it answered
    [is_token_expired()] with true when the scan asked it, and it
    answered false; when it returns [None], every fetcher of the pool
    answered true. *)
Theorem get_token_fetcher_first_unexpired :
  forall (self : nat) (w : World),
  exists r w',
    TokenFetcherPool.get_token_fetcher self w = (inr r, w')
    /\ match r with
       | Some f =>
           exists before after w1,
             _token_fetchers (pools w self) = before ++ f :: after
             /\ ask_all before w = (inr (repeat true (length before)), w1)
             /\ TokenManager.is_token_expired f w1 = (inr false, w')
       | None =>
           ask_all (_token_fetchers (pools w self)) w
           = (inr (repeat true (length (_token_fetchers (pools w self)))), w')
       end.
Proof.
  intros self w.
  unfold TokenFetcherPool.get_token_fetcher, bind, get_pool, gets.
  apply scan_spec.
Qed.

(** With a clock that stands still, the scan is a search for the first
    fetcher whose expiry time is set and not yet passed. *)
Lemma scan_constant_clock (now : Z) (fetchers : list nat) :
  forall w : World,
    (forall k, clock w k = now) ->
    fst (TokenFetcherPool.scan fetchers w)
    = inr (List.find (fun f => negb (expired_value now (fetcher_expiry w f))) fetchers).
Proof.
  induction fetchers as [|f rest IH]; intros w Hclk; [reflexivity|].
  cbn [TokenFetcherPool.scan List.find]. unfold bind.
  rewrite is_token_expired_run. unfold expired_value.
  destruct (negb (fetcher_expiry w f =? 0)) eqn:Hset.
  - rewrite Hclk. destruct (now >? fetcher_expiry w f); cbn [negb].
    + rewrite IH by exact Hclk. reflexivity.
    + reflexivity.
  - cbn [negb]. apply IH, Hclk.
Qed.

Lemma get_token_fetcher_constant_clock (now : Z) (self : nat) (w : World) :
  (forall k, clock w k = now) ->
  fst (TokenFetcherPool.get_token_fetcher self w)
  = inr (List.find (fun f => negb (expired_value now (fetcher_expiry w f)))
                   (_token_fetchers (pools w self))).
Proof.
  intros Hclk.
  unfold TokenFetcherPool.get_token_fetcher, bind, get_pool, gets.
  apply scan_constant_clock, Hclk.
Qed.

(** ** The provider: failures (C1, C7) *)

Lemma provider_handle_error_run (e : exn) (w : World) :
  DefaultTokenProvider._handle_error e w
  = (inr tt,
     set_trace (Log ERROR (DefaultTokenProvider.classify e)
                :: Log ERROR (MsgAutoRefreshError e) :: trace w) w).
Proof. reflexivity. Qed.

Lemma insert_provider_same {A} (f : DefaultTokenProviderObj -> A)
    (ps : nat -> DefaultTokenProviderObj) (self a : nat)
    (o : DefaultTokenProviderObj) :
  f o = f (ps self) -> f ((<[self := o]> ps) a) = f (ps a).
Proof.
  intros H. destruct (decide (self = a)) as [->|Hne].
  - rewrite fn_lookup_insert. exact H.
  - rewrite fn_lookup_insert_ne by exact Hne. reflexivity.
Qed.

(** The handler of a failed refresh writes neither the failure count nor
    the time of the last refresh, of any provider. *)
Lemma refresh_except_keeps_count (cfg : HandleTokenConfig) (self : nat)
    (e : exn) (w : World) (a : nat) :
  let w' := snd (DefaultTokenProvider.refresh_except cfg self e w) in
  _refresh_failure_count (providers w' a) = _refresh_failure_count (providers w a)
  /\ _last_refresh_timestamp (providers w' a) = _last_refresh_timestamp (providers w a).
Proof.
  unfold DefaultTokenProvider.refresh_except, config_extra, bind, get_provider,
    gets, put_provider, modify, time_time, log, emit, ret, raise.
  cbn.
  destruct (_ >=? _); [|split; reflexivity].
  destruct (auto_switch_backup_on_failure cfg); [|split; reflexivity].
  destruct (extra_attrs cfg !! "backup_token") as [b|]; [|split; reflexivity].
  destruct (truthy b); [|split; reflexivity].
  cbn. split.
  - apply (insert_provider_same _refresh_failure_count). reflexivity.
  - apply (insert_provider_same _last_refresh_timestamp). reflexivity.
Qed.



(** The signature method touches nothing but its cache. *)
Lemma generate_signature_frame (self : nat) (w : World) :
  let w' := snd (DefaultTokenProvider.generate_signature self w) in
  trace w' = trace w /\ providers w' = providers w /\ network w' = network w
  /\ clock w' = clock w /\ ticks w' = ticks w.
Proof.
  unfold DefaultTokenProvider.generate_signature, lru_cache,
    DefaultTokenProvider.generate_signature_body, DefaultTokenProvider.encode,
    bind, gets, get_provider, modify, ret, raise.
  cbn.
  destruct (generate_signature_cache w !! self);
    [cbn; repeat split; reflexivity|].
  cbn. destruct (_current_token (providers w self)); cbn; repeat split; reflexivity.
Qed.

(** ** The class as it is written *)

Lemma refresh_except_appends (cfg : HandleTokenConfig) (self : nat) (e : exn) :
  appends (DefaultTokenProvider.refresh_except cfg self e).
Proof.
  unfold DefaultTokenProvider.refresh_except, DefaultTokenProvider._handle_error,
    log, get_provider, put_provider, config_extra.
  repeat appends_step.
Qed.

Lemma refresh_except_posts (cfg : HandleTokenConfig) (self : nat) (e : exn)
    (w : World) :
  posts (snd (DefaultTokenProvider.refresh_except cfg self e w)) = posts w.
Proof.
  unfold DefaultTokenProvider.refresh_except, DefaultTokenProvider._handle_error,
    config_extra, bind, get_provider, gets, put_provider, modify, time_time,
    log, emit, ret, raise.
  cbn.
  destruct (_ >=? _); [|reflexivity].
  destruct (auto_switch_backup_on_failure cfg); [|reflexivity].
  destruct (extra_attrs cfg !! "backup_token") as [b|]; [|reflexivity].
  destruct (truthy b); reflexivity.
Qed.

(** A [DefaultTokenProvider] answers [is_token_expired()] with the body
    of the interface, which raises: every attempt of a refresh fails
    before it decides anything, so the refresh never returns a token and
    never sends a POST, whatever the state and however deep it may nest. *)
Lemma async_refresh_as_written (cfg : HandleTokenConfig) (depth self : nat) :
  forall w : World,
    let run :=
      DefaultTokenProvider._async_refresh_token
        cfg (dispatch := TokenProvider.base) depth self w in
    (exists e, fst run = inl e) /\ posts (snd run) = posts w.
Proof.
  induction depth as [|depth IH]; intros w.
  - split; [exists RecursionError|]; reflexivity.
  - cbn [DefaultTokenProvider._async_refresh_token]. unfold try_except.
    change (DefaultTokenProvider.refresh_try cfg (dispatch := TokenProvider.base) self w)
      with (@inl exn pyval NotImplementedError, w).
    cbn iota beta. unfold bind.
    pose proof (refresh_except_posts cfg self NotImplementedError w) as Hp.
    destruct (DefaultTokenProvider.refresh_except cfg self NotImplementedError w)
      as [[e|[]] w1]; cbn in Hp |- *.
    + split; [exists e; reflexivity | exact Hp].
    + destruct (IH w1) as [He Hposts]. split; [exact He|].
      rewrite Hposts. exact Hp.
Qed.





(** A request that fails leaves every provider as it was; one that
    succeeds resets the failure count of its provider to 0. *)
Lemma refresh_request_outcome (cfg : HandleTokenConfig) (self : nat) (w : World) :
  let r := DefaultTokenProvider.refresh_request cfg self w in
  match fst r with
  | inl _ => providers (snd r) = providers w
  | inr _ => _refresh_failure_count (providers (snd r) self) = 0
  end.
Proof.
  pose proof (generate_signature_frame self w) as Hframe.
  unfold DefaultTokenProvider.refresh_request, bind, get_provider, gets,
    http_post, emit, modify, ret, raise,
    DefaultTokenProvider._update_current_token, time_time, put_provider.
  cbn beta zeta.
  destruct (DefaultTokenProvider.generate_signature self w) as [[e|s] w0];
    cbn in Hframe; destruct Hframe as (_ & Hps & _).
  - exact Hps.
  - cbn.
    destruct (network w0 _) as [e|body]; cbn; [exact Hps|].
    destruct (DefaultTokenProvider.response_is_failure cfg body); cbn;
      [exact Hps|].
    destruct (body !! token_keyword cfg); cbn; [|exact Hps].
    rewrite fn_lookup_insert. reflexivity.
Qed.

Section FailureCount.

Variable cfg : HandleTokenConfig.
Context {d : TokenProvider.t}.

(** The provider's own [is_token_expired] is taken to leave the provider
    objects as they are. *)
Hypothesis is_token_expired_reads :
  forall (self : nat) (w : World),
    providers (snd (TokenProvider.is_token_expired self w)) = providers w.

Lemma should_refresh_frame (self : nat) (w : World) :
  providers (snd (DefaultTokenProvider._should_refresh_token cfg self w))
  = providers w.
Proof.
  unfold DefaultTokenProvider._should_refresh_token, bind. cbn beta zeta.
  pose proof (is_token_expired_reads self w) as H.
  destruct (TokenProvider.is_token_expired self w) as [[e|b] w1]; cbn in H;
    [exact H|].
  destruct b; exact H.
Qed.

Lemma refresh_try_outcome (self : nat) (w : World) :
  let r := DefaultTokenProvider.refresh_try cfg self w in
  match fst r with
  | inl _ => providers (snd r) = providers w
  | inr _ =>
      providers (snd r) = providers w
      \/ _refresh_failure_count (providers (snd r) self) = 0
  end.
Proof.
  unfold DefaultTokenProvider.refresh_try, bind. cbn beta zeta.
  pose proof (should_refresh_frame self w) as H.
  destruct (DefaultTokenProvider._should_refresh_token cfg self w)
    as [[e|b] w1]; cbn in H; [exact H|].
  destruct b.
  - pose proof (refresh_request_outcome cfg self w1) as Hreq. cbv zeta in Hreq.
    destruct (DefaultTokenProvider.refresh_request cfg self w1) as [[e|v] w2];
      cbn in Hreq |- *.
    + congruence.
    + right. exact Hreq.
  - left. exact H.
Qed.

(** However many attempts a refresh makes, and however many of them
    fail, the failure count of the provider ends where it started, or at
    0: no path of [_async_refresh_token] increases it. *)
Lemma async_refresh_never_increments (depth : nat) (self : nat) :
  forall w : World,
    let w' := snd (DefaultTokenProvider._async_refresh_token cfg depth self w) in
    _refresh_failure_count (providers w' self)
    = _refresh_failure_count (providers w self)
    \/ _refresh_failure_count (providers w' self) = 0.
Proof.
  induction depth as [|depth IH]; intros w; [left; reflexivity|].
  cbn [DefaultTokenProvider._async_refresh_token]. unfold try_except.
  pose proof (refresh_try_outcome self w) as Htry. cbv zeta in Htry.
  destruct (DefaultTokenProvider.refresh_try cfg self w) as [[e|v] w1];
    cbn in Htry |- *.
  - unfold bind.
    pose proof (refresh_except_keeps_count cfg self e w1 self) as [Hc _].
    destruct (DefaultTokenProvider.refresh_except cfg self e w1) as [[e'|[]] w2];
      cbn in Hc |- *.
    + left. rewrite Hc, Htry. reflexivity.
    + destruct (IH w2) as [H|H]; [left|right; exact H].
      rewrite H, Hc, Htry. reflexivity.
  - destruct Htry as [H|H]; [left; rewrite H; reflexivity | right; exact H].
Qed.

End FailureCount.

Corollary never_increments_as_written (cfg : HandleTokenConfig)
    (depth self : nat) (w : World) :
  let w' :=
    snd (DefaultTokenProvider._async_refresh_token
           cfg (dispatch := TokenProvider.base) depth self w) in
  _refresh_failure_count (providers w' self)
  = _refresh_failure_count (providers w self)
  \/ _refresh_failure_count (providers w' self) = 0.
Proof. apply async_refresh_never_increments. reflexivity. Qed.

(** The bodies a [DefaultTokenProvider] inherits leave the world alone. *)
Lemma base_is_token_expired_reads (self : nat) (w : World) :
  providers (snd (TokenProvider.is_token_expired (t := TokenProvider.base) self w))
  = providers w.
Proof. reflexivity. Qed.

Lemma spec_is_token_expired_reads (self : nat) (w : World) :
  providers (snd (SpecProvider.is_token_expired self w)) = providers w.
Proof.
  unfold SpecProvider.is_token_expired, bind, get_provider, gets, time_time, ret.
  destruct (truthy _); reflexivity.
Qed.

(** C1, on the code. Settings: threshold 2, switch to the backup enabled,
    a backup token configured. A [DefaultTokenProvider] as the class
    defines it fails four times in a row (its [is_token_expired] raises);
    and a provider that answers [is_token_expired] as the specification
    says meets [{"error": "invalid"}] four times in a row. In both runs
    the failure count is still 0 after the fourth failure and the token
    is still ["tok"]: the count is never incremented, so the threshold is
    never reached. *)
Theorem failure_count_never_incremented :
  let cfg := with_extras (with_policy default_config 2 true 5) "backup" 3 1 in
  let w := scenario_world always_error in
  let as_defined :=
    DefaultTokenProvider._async_refresh_token
      cfg (dispatch := TokenProvider.base) 4 0 w in
  let as_specified :=
    DefaultTokenProvider._async_refresh_token
      cfg (dispatch := SpecProvider.expiry_only) 4 0 w in
  let failures w' :=
    length (List.filter
              (fun ev => match ev with
                         | Log ERROR (MsgAutoRefreshError _) => true
                         | _ => false
                         end) (trace w')) in
  switches cfg (mkProvider (PyStr "tok") 8000 0 2) = true
  /\ fst as_defined = inl RecursionError
  /\ failures (snd as_defined) = 4%nat
  /\ providers (snd as_defined) 0 = scenario_provider
  /\ fst as_specified = inl RecursionError
  /\ failures (snd as_specified) = 4%nat
  /\ length (posts (snd as_specified)) = 4%nat
  /\ providers (snd as_specified) 0 = scenario_provider.
Proof. vm_compute. repeat split; reflexivity. Qed.

(** ** The provider: the refresh guard (C2) *)

Lemma short_circuit_run (cfg : HandleTokenConfig) (d : TokenProvider.t)
    (depth self : nat) (w w1 : World) :
  TokenProvider.is_token_expired self w = (inr false, w1) ->
  clock w1 (ticks w1) - _last_refresh_timestamp (providers w1 self)
  <= min_time_between_refreshes cfg ->
  DefaultTokenProvider._async_refresh_token cfg (S depth) self w
  = (inr (_current_token (providers w1 self)), set_ticks (S (ticks w1)) w1).
Proof.
  intros Hexp Hmin.
  cbn [DefaultTokenProvider._async_refresh_token].
  unfold try_except, DefaultTokenProvider.refresh_try,
    DefaultTokenProvider._should_refresh_token, bind.
  rewrite Hexp.
  unfold time_time, get_provider, gets, ret. cbn.
  destruct (_ >? _) eqn:Hgt; [lia|].
  reflexivity.
Qed.






Lemma spec_is_token_expired_run (self : nat) (w : World) :
  truthy (_current_token (providers w self)) = true ->
  SpecProvider.is_token_expired self w
  = (inr (clock w (ticks w) >? _token_expiry_time (providers w self)),
     set_ticks (S (ticks w)) w).
Proof.
  intros H.
  unfold SpecProvider.is_token_expired, bind, get_provider, gets, time_time, ret.
  cbn beta. rewrite H. reflexivity.
Qed.

(** For a provider that answers [is_token_expired] as the specification
    says: as long as the clock stays within the expiry time and within
    [min_time_between_refreshes] of the last refresh, any number of
    refresh calls in a row return the current token, send no POST and
    change nothing but the count of clock readings. *)
Lemma refresh_many_while_fresh (cfg : HandleTokenConfig) (depth self : nat)
    (n : nat) :
  forall w : World,
    truthy (_current_token (providers w self)) = true ->
    (forall k, (ticks w <= k)%nat ->
               clock w k <= _token_expiry_time (providers w self)
               /\ clock w k - _last_refresh_timestamp (providers w self)
                  <= min_time_between_refreshes cfg) ->
    refresh_many cfg (d := SpecProvider.expiry_only) (S depth) n self w
    = (inr (repeat (_current_token (providers w self)) n),
       set_ticks (ticks w + 2 * n) w).
Proof.
  induction n as [|n IH]; intros w Htok Hclk.
  - cbn [refresh_many repeat]. unfold ret.
    replace (ticks w + 2 * 0)%nat with (ticks w) by lia.
    destruct w; reflexivity.
  - cbn [refresh_many repeat]. unfold bind at 1.
    pose proof (spec_is_token_expired_run self w Htok) as Hexp.
    destruct (Hclk (ticks w) (le_n _)) as [Hle _].
    destruct (Z.gtb_spec (clock w (ticks w)) (_token_expiry_time (providers w self)))
      as [Hgt|_]; [lia|].
    destruct (Hclk (S (ticks w)) (le_S _ _ (le_n _))) as [_ Hmin].
    rewrite (short_circuit_run cfg SpecProvider.expiry_only depth self w
               (set_ticks (S (ticks w)) w) Hexp Hmin).
    change (set_ticks (S (ticks (set_ticks (S (ticks w)) w)))
              (set_ticks (S (ticks w)) w))
      with (set_ticks (S (S (ticks w))) w).
    unfold bind at 1.
    rewrite (IH (set_ticks (S (S (ticks w))) w)).
    + cbn [ticks providers set_ticks]. unfold ret.
      replace (S (S (ticks w)) + 2 * n)%nat with (ticks w + 2 * S n)%nat by lia.
      reflexivity.
    + exact Htok.
    + intros k Hk. apply Hclk. cbn in Hk. lia.
Qed.

(** ** The signature (C5) *)

Lemma generate_signature_hit (self : nat) (w : World) (s : string) :
  generate_signature_cache w !! self = Some s ->
  DefaultTokenProvider.generate_signature self w = (inr s, w).
Proof.
  intros H.
  unfold DefaultTokenProvider.generate_signature, lru_cache, bind, gets, ret.
  cbn beta. rewrite H. reflexivity.
Qed.

Lemma generate_signature_miss (self : nat) (w : World) (tok : string) :
  generate_signature_cache w !! self = None ->
  _current_token (providers w self) = PyStr tok ->
  DefaultTokenProvider.generate_signature self w
  = (inr (Sha256.hexdigest tok),
     set_generate_signature_cache
       (<[self := Sha256.hexdigest tok]> (generate_signature_cache w)) w).
Proof.
  intros Hmiss Htok.
  unfold DefaultTokenProvider.generate_signature, lru_cache,
    DefaultTokenProvider.generate_signature_body, DefaultTokenProvider.encode,
    bind, gets, get_provider, modify, ret.
  cbn beta. rewrite Hmiss. cbn. rewrite Htok. reflexivity.
Qed.

(** What [generate_signature] has returned once for a provider, it
    returns for it from then on, whatever the provider's token has
    become: nothing but the cache is consulted. *)
Lemma generate_signature_is_permanent (self : nat) (w w1 : World) (s : string) :
  DefaultTokenProvider.generate_signature self w = (inr s, w1) ->
  generate_signature_cache w1 !! self = Some s
  /\ forall w2 : World,
       generate_signature_cache w2 = generate_signature_cache w1 ->
       DefaultTokenProvider.generate_signature self w2 = (inr s, w2).
Proof.
  intros Hrun.
  assert (Hc : generate_signature_cache w1 !! self = Some s).
  { revert Hrun.
    unfold DefaultTokenProvider.generate_signature, lru_cache,
      DefaultTokenProvider.generate_signature_body, DefaultTokenProvider.encode,
      bind, gets, get_provider, modify, ret, raise.
    cbn beta.
    destruct (generate_signature_cache w !! self) as [c|] eqn:Hlook.
    - intros [= <- <-]. exact Hlook.
    - cbn. destruct (_current_token (providers w self)); cbn;
        try discriminate.
      intros [= <- <-]. cbn. apply lookup_insert_eq. }
  split; [exact Hc|].
  intros w2 Heq. apply generate_signature_hit. rewrite Heq. exact Hc.
Qed.

Lemma update_current_token_keeps_signature_cache (cfg : HandleTokenConfig)
    (self : nat) (tok : pyval) (w : World) :
  generate_signature_cache
    (snd (DefaultTokenProvider._update_current_token cfg self tok w))
  = generate_signature_cache w.
Proof. reflexivity. Qed.

(** C5, on the code. A provider holds ["tok-1"] and signs it; a refresh
    then answers ["tok-2"], which becomes the token. The next signature
    is still the digest of ["tok-1"], not that of ["tok-2"], and the next
    refresh sends the new token with the old signature. *)
Theorem signature_of_first_token_is_kept :
  let cfg := default_config in
  let net := fun _ : nat => HttpJson {[ "token" := PyStr "tok-2" ]} in
  let w := with_provider 0 (mkProvider (PyStr "tok-1") 8000 0 0)
             (initial_world (fun _ => 1000) net) in
  let first := DefaultTokenProvider.refresh_request cfg 0 w in
  let signed := DefaultTokenProvider.generate_signature 0 (snd first) in
  let second := DefaultTokenProvider.refresh_request cfg 0 (snd first) in
  let digest1 := "65dcf16ea3dfa49069628089eb4a75483070f5584b2a21ee64912b5f621f12da" in
  let digest2 := "b9d7f2826c798e990d30dd291fddb436a01327c293788ce57195e60c7efb82b2" in
  Sha256.hexdigest "tok-1" = digest1
  /\ Sha256.hexdigest "tok-2" = digest2
  /\ fst first = inr (PyStr "tok-2")
  /\ _current_token (providers (snd first) 0) = PyStr "tok-2"
  /\ fst signed = inr digest1
  /\ posts (snd second)
     = [ Post "default_refresh_url" (PyStr "tok-2") digest1;
         Post "default_refresh_url" (PyStr "tok-1") digest1 ].
Proof. vm_compute. repeat split; reflexivity. Qed.

(** ** The manager: [get_token] (C3, C6) *)

Section GetToken.

Context {d : TokenProvider.t}.

Lemma get_token_hit (self : nat) (w : World) (v : pyval) :
  get_token_cache w !! self = Some v ->
  TokenManager.get_token self w = (inr v, w).
Proof.
  intros H.
  unfold TokenManager.get_token, lru_cache, bind, gets, ret.
  cbn beta. rewrite H. reflexivity.
Qed.

Lemma get_token_stores (self : nat) (w w1 : World) (v : pyval) :
  TokenManager.get_token self w = (inr v, w1) ->
  get_token_cache w1 !! self = Some v.
Proof.
  unfold TokenManager.get_token, lru_cache, bind, gets, modify, ret.
  cbn beta.
  destruct (get_token_cache w !! self) as [c|] eqn:Hlook.
  - intros [= <- <-]. exact Hlook.
  - destruct (TokenManager.get_token_body self w) as [[e|r] w0];
      [discriminate|].
    intros [= <- <-]. cbn. apply lookup_insert_eq.
Qed.

(** What [get_token] has returned once for a manager, it returns for it
    from then on, in any later world that still has the cache: the body
    does not run again, so nothing is refreshed and nothing changes. *)
Lemma get_token_is_permanent (self : nat) (w w1 : World) (v : pyval) :
  TokenManager.get_token self w = (inr v, w1) ->
  forall w2 : World,
    get_token_cache w2 = get_token_cache w1 ->
    TokenManager.get_token self w2 = (inr v, w2).
Proof.
  intros Hrun w2 Heq. apply get_token_hit. rewrite Heq.
  exact (get_token_stores self w w1 v Hrun).
Qed.

(** With an empty cache, a refresh that raises and no backup token, the
    body of [get_token] returns [None]. *)
Lemma get_token_body_swallows (self : nat) (w w1 : World) (e : exn) :
  _cached_current_token (managers w self) = PyNone ->
  provider_refresh_token (_token_provider (managers w self)) w = (inl e, w1) ->
  managers w1 self = managers w self ->
  truthy (_backup_token (managers w self)) = false ->
  fst (TokenManager.get_token_body self w) = inr PyNone.
Proof.
  intros Hcache Hrefresh Hsame Hbackup.
  unfold TokenManager.get_token_body, bind, get_manager, gets, try_except, ret.
  cbn beta. rewrite Hcache. cbn -[provider_refresh_token]. rewrite Hrefresh.
  unfold TokenManager._handle_error, log, emit, modify, bind. cbn.
  rewrite Hsame, Hbackup. cbn. rewrite Hsame, Hcache. reflexivity.
Qed.

End GetToken.

(** C3, on the code. First, with a provider that answers as the
    specification says: a manager caches ["tok"], valid until 8000; it is
    asked at time 1000 and answers ["tok"]. From then on the clock reads
    9000, so the token is expired for the manager and for the provider;
    asked again, the manager answers ["tok"] without calling the
    provider, although the body of [get_token], run in the same world,
    would refresh and return ["new"]. Second, with the provider as the
    class defines it and an empty cache: the first call returns [None]
    after one failed refresh, and the second returns [None] without
    another. *)
Theorem get_token_first_result_is_permanent :
  let net := fun _ : nat => HttpJson {[ "token" := PyStr "new" ]} in
  let w :=
    with_manager 0 scenario_manager
      (with_provider 0 scenario_provider
         (initial_world clock_1000_then_9000 net)) in
  let d := SpecProvider.dispatch default_config 1 in
  let first := TokenManager.get_token (dispatch := d) 0 w in
  let second := TokenManager.get_token (dispatch := d) 0 (snd first) in
  let unmemoized := TokenManager.get_token_body (dispatch := d) 0 (snd first) in
  let w0 :=
    with_manager 0 (mkManager 0 PyNone false (PyStr "") false)
      (scenario_world always_error) in
  let first0 := TokenManager.get_token (dispatch := TokenProvider.base) 0 w0 in
  let second0 :=
    TokenManager.get_token (dispatch := TokenProvider.base) 0 (snd first0) in
  (fst first = inr (PyStr "tok")
   /\ fst (TokenManager.is_token_expired 0 (snd first)) = inr true
   /\ fst (SpecProvider.is_token_expired 0 (snd first)) = inr true
   /\ second = (inr (PyStr "tok"), snd first)
   /\ refresh_calls (snd second) = []
   /\ fst unmemoized = inr (PyStr "new")
   /\ refresh_calls (snd unmemoized) = [CallRefreshToken 0])
  /\ (fst first0 = inr PyNone
      /\ refresh_calls (snd first0) = [CallRefreshToken 0]
      /\ second0 = (inr PyNone, snd first0)
      /\ _cached_current_token (managers (snd second0) 0) = PyNone).
Proof. vm_compute. repeat split; reflexivity. Qed.

(** C6, on the code. With the provider as the class defines it, an empty
    cache and no backup token, [get_token()] logs the failed refresh and
    returns [None]; nothing is raised. And with a provider that answers
    as the specification says, a cached token that expired at 8000, a
    network that is down and no backup token, [get_token()] at time 9000
    returns the expired token. *)
Theorem get_token_returns_none_or_expired :
  let w0 :=
    with_manager 0 (mkManager 0 PyNone false (PyStr "") false)
      (scenario_world always_error) in
  let run0 := TokenManager.get_token (dispatch := TokenProvider.base) 0 w0 in
  let down := fun _ : nat => HttpRaises ClientError in
  let w1 :=
    with_manager 0 scenario_manager
      (with_provider 0 scenario_provider (initial_world (fun _ => 9000) down)) in
  let run1 :=
    TokenManager.get_token (dispatch := SpecProvider.dispatch default_config 3) 0 w1 in
  (fst run0 = inr PyNone
   /\ trace (snd run0)
      = [ Log ERROR (MsgUnknownError NotImplementedError);
          Log ERROR (MsgAutoRefreshError NotImplementedError);
          CallRefreshToken 0 ])
  /\ (fst (TokenManager.is_token_expired 0 w1) = inr true
      /\ fst run1 = inr (PyStr "tok")
      /\ fst (TokenManager.is_token_expired 0 (snd run1)) = inr true).
Proof. vm_compute. repeat split; reflexivity. Qed.

(** ** The pool: admission and tasks (C4, C9) *)

Lemma mark_all_is_token_expired (flags : nat -> bool) (f : nat) (w : World) :
  TokenManager.is_token_expired f (mark_all flags w)
  = (fst (TokenManager.is_token_expired f w),
     mark_all flags (snd (TokenManager.is_token_expired f w))).
Proof.
  rewrite !is_token_expired_run.
  change (fetcher_expiry (mark_all flags w) f) with (fetcher_expiry w f).
  destruct (negb _); reflexivity.
Qed.

(** The scan never looks at the [invalid] attribute: setting it
    differently on any of the managers changes nothing in what
    [get_token_fetcher] returns. *)
Lemma scan_ignores_invalid (flags : nat -> bool) (fetchers : list nat) :
  forall w : World,
    fst (TokenFetcherPool.scan fetchers (mark_all flags w))
    = fst (TokenFetcherPool.scan fetchers w).
Proof.
  induction fetchers as [|f rest IH]; intros w; [reflexivity|].
  cbn [TokenFetcherPool.scan]. unfold bind.
  rewrite mark_all_is_token_expired.
  destruct (TokenManager.is_token_expired f w) as [[e|b] w1]; cbn [fst snd];
    [reflexivity|].
  destruct b; cbn [negb]; [apply IH | reflexivity].
Qed.

Lemma get_token_fetcher_ignores_invalid (flags : nat -> bool) (self : nat)
    (w : World) :
  fst (TokenFetcherPool.get_token_fetcher self (mark_all flags w))
  = fst (TokenFetcherPool.get_token_fetcher self w).
Proof.
  unfold TokenFetcherPool.get_token_fetcher, bind, get_pool, gets.
  apply scan_ignores_invalid.
Qed.

(** C9, on the code. A pool of two managers with tokens valid until 8000,
    a retry budget of 1 and a provider as the class defines it, at time
    1000. The bulk refresh fails for both managers, marks both invalid,
    retries each once (the retry counter ends at 2), and the failure of
    the retry is raised to the caller. The scan that follows returns
    manager 0, which is marked invalid. *)
Theorem invalid_fetcher_is_returned :
  let cfg := with_extras default_config "" 1 0 in
  let w := scenario_pool (mkExecutor 2 0 0) 1 always_error in
  let run :=
    TokenFetcherPool.refresh_token_concurrently
      cfg (dispatch := TokenProvider.base) 0 w in
  let scanned := TokenFetcherPool.get_token_fetcher 0 (snd run) in
  fst run = inl NotImplementedError
  /\ length (refresh_calls (snd run)) = 4%nat
  /\ _retry_count (pools (snd run) 0) = 2
  /\ invalid (managers (snd run) 0) = true
  /\ invalid (managers (snd run) 1) = true
  /\ fst scanned = inr (Some 0%nat).
Proof. vm_compute. repeat split; reflexivity. Qed.

Lemma settle_returns {A} (m : M A) (w : World) :
  exists r w', TokenFetcherPool.settle m w = (inr r, w').
Proof.
  unfold TokenFetcherPool.settle. destruct (m w) as [r w']. eauto.
Qed.

(** Gathering starts one task for each fetcher of the list, in the order
    of the list, and the failure of a task stops none of the others from
    being started. *)
Lemma start_all_covers (cfg : HandleTokenConfig) (d : TokenProvider.t)
    (self : nat) (fetchers : list nat) :
  forall w : World,
  exists started w',
    TokenFetcherPool.start_all cfg self fetchers w = (inr started, w')
    /\ map fst started = fetchers.
Proof.
  induction fetchers as [|f rest IH]; intros w.
  - exists [], w. split; reflexivity.
  - cbn [TokenFetcherPool.start_all]. unfold bind at 1.
    destruct (settle_returns (TokenFetcherPool.task_start cfg self f) w)
      as (r & w1 & Hr).
    rewrite Hr. unfold bind at 1.
    destruct (IH w1) as (started & w' & Hs & Hmap).
    rewrite Hs. exists ((f, r) :: started), w'.
    split; [reflexivity|]. cbn. rewrite Hmap. reflexivity.
Qed.

(** The executor the pool is built with has [max(2, pool_size // 2)]
    workers and an empty queue. *)
Lemma pool_executor (n : Z) (w : World) :
  DefaultTokenProvider.new_executor (Z.max 2 (n / 2)) w
  = (inr (mkExecutor (Z.max 2 (n / 2)) 0 0), w).
Proof.
  unfold DefaultTokenProvider.new_executor.
  destruct (Z.leb_spec (Z.max 2 (n / 2)) 0); [lia | reflexivity].
Qed.

(** The gate as it is coded: the bulk refresh is gathered exactly when
    the number of work items waiting in the executor's queue is below
    twice its number of workers, and otherwise only the warning is
    logged. *)
Lemma refresh_token_concurrently_gate (cfg : HandleTokenConfig)
    (d : TokenProvider.t) (self : nat) (w : World) :
  let pl := pools w self in
  let ex := _concurrent_refresh_executor pl in
  TokenFetcherPool.refresh_token_concurrently cfg self w
  = if _work_queue_qsize ex <? _max_workers ex * 2
    then TokenFetcherPool.gather cfg self (_token_fetchers pl) w
    else (inr tt, set_trace (Log WARNING MsgConcurrentLimit :: trace w) w).
Proof.
  intros pl ex. subst pl ex.
  unfold TokenFetcherPool.refresh_token_concurrently,
    TokenFetcherPool._can_refresh_concurrently, bind, get_pool, gets, ret,
    log, emit, modify.
  cbn beta zeta. destruct (_ <? _); reflexivity.
Qed.

Lemma built_executor_admits (n : Z) :
  (_work_queue_qsize (mkExecutor (Z.max 2 (n / 2)) 0 0)
   <? _max_workers (mkExecutor (Z.max 2 (n / 2)) 0 0) * 2) = true.
Proof. cbn. apply Z.ltb_lt. lia. Qed.

(** C4, on the code. The executor of a pool is built with
    [max(2, pool_size // 2)] workers and with nothing queued or running,
    and no method of the pool gives it work. For a pool with this
    executor the bulk refresh is admitted whatever
    [max_concurrent_refreshes] is, because the setting is not read: also
    when it leaves no budget at all ([max_concurrent_refreshes <= 0], so
    that the work, 0, is not below twice it), the tasks of the members
    are gathered, the warning is not what the call does, and
    [refresh_token()] is called for every member. (The provider's
    [refresh_token] is taken only to add events to the trace.) *)
Theorem admission_ignores_the_budget :
  forall (cfg : HandleTokenConfig) (d : TokenProvider.t) (self : nat)
         (w : World) (n : Z),
    (forall p : nat, appends (TokenProvider.refresh_token p)) ->
    _concurrent_refresh_executor (pools w self) = mkExecutor (Z.max 2 (n / 2)) 0 0 ->
    max_concurrent_refreshes cfg <= 0 ->
    _token_fetchers (pools w self) <> [] ->
    let pl := pools w self in
    let run := TokenFetcherPool.refresh_token_concurrently cfg self w in
    within_refresh_budget cfg (_concurrent_refresh_executor pl) = false
    /\ run = TokenFetcherPool.gather cfg self (_token_fetchers pl) w
    /\ (length (_token_fetchers pl) + length (refresh_calls w)
        <= length (refresh_calls (snd run)))%nat
    /\ refresh_calls (snd run) <> refresh_calls w.
Proof.
  intros cfg d self w n Happ Hex Hmax Hne pl run. subst pl run.
  assert (Hadm : (_work_queue_qsize (_concurrent_refresh_executor (pools w self))
                  <? _max_workers (_concurrent_refresh_executor (pools w self)) * 2)
                 = true)
    by (rewrite Hex; apply built_executor_admits).
  pose proof (admitted_refresh_calls_every_member cfg Happ self w Hadm) as Hcalls.
  cbv zeta in Hcalls.
  split; [|split; [|split]].
  - unfold within_refresh_budget. rewrite Hex. cbn. apply Z.ltb_ge. lia.
  - rewrite refresh_token_concurrently_gate. cbv zeta. rewrite Hadm. reflexivity.
  - exact Hcalls.
  - intros Heq. rewrite Heq in Hcalls.
    destruct (_token_fetchers (pools w self)); [contradiction|].
    cbn in Hcalls. lia.
Qed.

Lemma admission_ignores_the_budget_witness :
  let cfg := with_extras (with_policy default_config 10 false 0) "" 0 0 in
  let w := scenario_pool (mkExecutor (Z.max 2 (5 / 2)) 0 0) 0 always_error in
  let run :=
    TokenFetcherPool.refresh_token_concurrently
      cfg (dispatch := TokenProvider.base) 0 w in
  (max_concurrent_refreshes cfg <= 0
   /\ _token_fetchers (pools w 0) <> [])
  /\ within_refresh_budget cfg (_concurrent_refresh_executor (pools w 0)) = false
  /\ refresh_calls (snd run) <> refresh_calls w
  /\ fst run = inr tt
  /\ refresh_calls (snd run) = [CallRefreshToken 0; CallRefreshToken 0]
  /\ List.filter (fun ev => match ev with Log WARNING _ => true | _ => false end)
       (trace (snd run)) = [].
Proof.
  intros cfg w run. subst run.
  assert (Hmax : max_concurrent_refreshes cfg <= 0) by (vm_compute; discriminate).
  assert (Hne : _token_fetchers (pools w 0) <> []) by (vm_compute; discriminate).
  split; [split; [exact Hmax | exact Hne]|].
  destruct (admission_ignores_the_budget cfg TokenProvider.base 0%nat w 5
              base_refresh_token_appends eq_refl Hmax Hne) as (H1 & _ & _ & H4).
  split; [exact H1|]. split; [exact H4|].
  vm_compute. repeat split; reflexivity.
Defined.

(** ** The provider: a refresh that succeeds *)





(** X2. A token that [_update_current_token] has just installed is not
    expired for a manager of the provider: when the expiry time it
    computed is not 0 and the clock, read next, has not passed it,
    [is_token_expired()] of the manager answers false, whatever the token
    is. *)
Theorem updated_token_is_not_expired :
  forall (cfg : HandleTokenConfig) (self m : nat) (tok : pyval) (w : World),
    _token_provider (managers w m) = self ->
    clock w (ticks w) + expiry_time cfg <> 0 ->
    clock w (S (S (ticks w))) <= clock w (ticks w) + expiry_time cfg ->
    let updated := snd (DefaultTokenProvider._update_current_token cfg self tok w) in
    fst (TokenManager.is_token_expired m updated) = inr false.
Proof.
  intros cfg self m tok w Hm Hnz Hle updated. subst updated.
  rewrite is_token_expired_run.
  unfold fetcher_expiry, DefaultTokenProvider._update_current_token, bind,
    time_time, put_provider, modify.
  cbn. rewrite Hm, fn_lookup_insert. cbn.
  destruct (Z.eqb_spec (clock w (ticks w) + expiry_time cfg) 0) as [|_];
    [contradiction|].
  cbn. f_equal.
  destruct (Z.gtb_spec (clock w (S (S (ticks w))))
              (clock w (ticks w) + expiry_time cfg)); [lia | reflexivity].
Qed.

Lemma updated_token_is_not_expired_witness :
  let w := with_manager 0 scenario_manager (scenario_world always_error) in
  (1000 + expiry_time default_config <> 0
   /\ 1000 <= 1000 + expiry_time default_config)
  /\ fst (TokenManager.is_token_expired 0
            (snd (DefaultTokenProvider._update_current_token
                    default_config 0 PyNone w)))
     = inr false.
Proof.
  intros w.
  assert (Hnz : clock w (ticks w) + expiry_time default_config <> 0)
    by (vm_compute; discriminate).
  assert (Hle : clock w (S (S (ticks w)))
                <= clock w (ticks w) + expiry_time default_config)
    by (vm_compute; discriminate).
  split; [split; [exact Hnz | exact Hle]|].
  exact (updated_token_is_not_expired default_config 0%nat 0%nat PyNone w
           eq_refl Hnz Hle).
Defined.

(** ** The provider: what a failed attempt can end in *)

Lemma refresh_except_result (cfg : HandleTokenConfig) (self : nat) (e : exn)
    (w : World) :
  fst (DefaultTokenProvider.refresh_except cfg self e w) = inr tt
  \/ fst (DefaultTokenProvider.refresh_except cfg self e w)
     = inl (AttributeError "backup_token").
Proof.
  unfold DefaultTokenProvider.refresh_except, config_extra, bind, get_provider,
    gets, put_provider, modify, time_time, log, emit, ret, raise.
  cbn.
  destruct (_ >=? _); [|left; reflexivity].
  destruct (auto_switch_backup_on_failure cfg); [|left; reflexivity].
  destruct (extra_attrs cfg !! "backup_token") as [b|]; [|right; reflexivity].
  destruct (truthy b); left; reflexivity.
Qed.

Lemma refresh_except_frame (cfg : HandleTokenConfig) (self : nat) (e : exn)
    (w : World) :
  let w' := snd (DefaultTokenProvider.refresh_except cfg self e w) in
  managers w' = managers w /\ pools w' = pools w
  /\ get_token_cache w' = get_token_cache w.
Proof.
  unfold DefaultTokenProvider.refresh_except, config_extra, bind, get_provider,
    gets, put_provider, modify, time_time, log, emit, ret, raise.
  cbn.
  destruct (_ >=? _); [|repeat split; reflexivity].
  destruct (auto_switch_backup_on_failure cfg); [|repeat split; reflexivity].
  destruct (extra_attrs cfg !! "backup_token") as [b|]; [|repeat split; reflexivity].
  destruct (truthy b); repeat split; reflexivity.
Qed.

(** The refresh of a provider as the class defines it, in full: it ends
    in an exception, sends nothing, and writes neither the time of the
    last refresh nor the failure count, nor any manager or pool. *)
Lemma async_refresh_as_written_frame (cfg : HandleTokenConfig)
    (depth self : nat) :
  forall w : World,
    let run :=
      DefaultTokenProvider._async_refresh_token
        cfg (dispatch := TokenProvider.base) depth self w in
    (fst run = inl RecursionError
     \/ fst run = inl (AttributeError "backup_token"))
    /\ posts (snd run) = posts w
    /\ (forall a,
          _last_refresh_timestamp (providers (snd run) a)
          = _last_refresh_timestamp (providers w a)
          /\ _refresh_failure_count (providers (snd run) a)
             = _refresh_failure_count (providers w a))
    /\ managers (snd run) = managers w
    /\ pools (snd run) = pools w
    /\ get_token_cache (snd run) = get_token_cache w.
Proof.
  induction depth as [|depth IH]; intros w.
  - cbn. split; [left; reflexivity|]. repeat split; reflexivity.
  - cbn [DefaultTokenProvider._async_refresh_token]. unfold try_except.
    change (DefaultTokenProvider.refresh_try cfg (dispatch := TokenProvider.base) self w)
      with (@inl exn pyval NotImplementedError, w).
    cbn iota beta. unfold bind.
    pose proof (refresh_except_posts cfg self NotImplementedError w) as Hp.
    pose proof (refresh_except_result cfg self NotImplementedError w) as Hr.
    pose proof (refresh_except_frame cfg self NotImplementedError w) as Hf.
    pose proof (fun a => refresh_except_keeps_count cfg self NotImplementedError w a)
      as Hc.
    cbv zeta in Hf, Hc.
    destruct (DefaultTokenProvider.refresh_except cfg self NotImplementedError w)
      as [[e|[]] w1]; cbn [fst snd] in Hp, Hr, Hf, Hc |- *.
    + destruct Hr as [Hr|Hr]; [discriminate|].
      injection Hr as ->.
      split; [right; reflexivity|]. split; [exact Hp|].
      split; [intros a; destruct (Hc a); split; assumption|]. exact Hf.
    + destruct (IH w1) as (He & Hposts & Hcnt & Hms & Hpl & Hgc).
      destruct Hf as (Hf1 & Hf2 & Hf3).
      split; [exact He|]. split; [rewrite Hposts; exact Hp|].
      split.
      * intros a. destruct (Hcnt a) as [H1 H2]. destruct (Hc a) as [H3 H4].
        split; congruence.
      * repeat split; congruence.
Qed.

(** X3. As the class is written, [_async_refresh_token] never returns a
    token: whatever the settings, the state and the number of nested
    calls allowed, it ends in [RecursionError], or in [AttributeError]
    for [backup_token], without sending a POST, and it leaves the time of
    the last refresh and the failure count of every provider, and every
    manager and pool, as they were. *)
Theorem refresh_as_written_never_returns :
  forall (cfg : HandleTokenConfig) (depth self : nat) (w : World),
    let run :=
      DefaultTokenProvider._async_refresh_token
        cfg (dispatch := TokenProvider.base) depth self w in
    (fst run = inl RecursionError
     \/ fst run = inl (AttributeError "backup_token"))
    /\ posts (snd run) = posts w
    /\ (forall a,
          _last_refresh_timestamp (providers (snd run) a)
          = _last_refresh_timestamp (providers w a)
          /\ _refresh_failure_count (providers (snd run) a)
             = _refresh_failure_count (providers w a))
    /\ managers (snd run) = managers w
    /\ pools (snd run) = pools w.
Proof.
  intros cfg depth self w run.
  destruct (async_refresh_as_written_frame cfg depth self w)
    as (H1 & H2 & H3 & H4 & H5 & _).
  repeat split; try assumption; apply H3.
Qed.

(** X4. Whatever the provider's [is_token_expired] answers, as long as it
    leaves the provider objects alone: however many attempts a refresh
    makes and however many of them fail, the failure count of the
    provider ends where it started or at 0, so no refresh ever raises
    it. *)
Theorem refresh_never_increases_failure_count :
  forall (cfg : HandleTokenConfig) (d : TokenProvider.t),
    (forall (self : nat) (w : World),
        providers (snd (TokenProvider.is_token_expired self w)) = providers w) ->
    forall (depth self : nat) (w : World),
      let w' := snd (DefaultTokenProvider._async_refresh_token cfg depth self w) in
      _refresh_failure_count (providers w' self)
      = _refresh_failure_count (providers w self)
      \/ _refresh_failure_count (providers w' self) = 0.
Proof.
  intros cfg d Hreads depth self w.
  exact (async_refresh_never_increments cfg Hreads depth self w).
Qed.

Lemma refresh_never_increases_failure_count_witness :
  let cfg := default_config in
  let w := with_provider 0 (mkProvider (PyStr "tok") 8000 0 7)
             (initial_world (fun _ => 1000) always_error) in
  let w' :=
    snd (DefaultTokenProvider._async_refresh_token
           cfg (dispatch := SpecProvider.expiry_only) 3 0 w) in
  (forall (self : nat) (w : World),
      providers (snd (SpecProvider.is_token_expired self w)) = providers w)
  /\ (_refresh_failure_count (providers w' 0) = 7
      \/ _refresh_failure_count (providers w' 0) = 0).
Proof.
  intros cfg w w'.
  split; [exact spec_is_token_expired_reads|].
  exact (refresh_never_increases_failure_count cfg SpecProvider.expiry_only
           spec_is_token_expired_reads 3%nat 0%nat w).
Defined.

(** X5. When an attempt fails with the failure count at or above the
    threshold and the switch to the backup enabled, but the settings
    object has no [backup_token] attribute, the handler itself raises:
    [_async_refresh_token] ends in [AttributeError] for [backup_token]
    right after logging the failure, in place of the exception of the
    attempt, and does not start over. *)
Theorem missing_backup_token_ends_refresh :
  forall (cfg : HandleTokenConfig) (d : TokenProvider.t) (depth self : nat)
         (w w1 : World) (e : exn),
    DefaultTokenProvider.refresh_try cfg self w = (inl e, w1) ->
    refresh_failure_attempts_threshold cfg
    <= _refresh_failure_count (providers w1 self) ->
    auto_switch_backup_on_failure cfg = true ->
    extra_attrs cfg !! "backup_token" = None ->
    DefaultTokenProvider._async_refresh_token cfg (S depth) self w
    = (inl (AttributeError "backup_token"),
       set_trace (Log ERROR (DefaultTokenProvider.classify e)
                  :: Log ERROR (MsgAutoRefreshError e) :: trace w1) w1).
Proof.
  intros cfg d depth self w w1 e Htry Hthr Hauto Hnone.
  cbn [DefaultTokenProvider._async_refresh_token].
  unfold try_except. rewrite Htry.
  unfold DefaultTokenProvider.refresh_except, DefaultTokenProvider._handle_error,
    config_extra, bind, get_provider, gets, log, emit, modify, ret, raise.
  cbn. rewrite Hauto, Hnone.
  destruct (Z.geb_spec (_refresh_failure_count (providers w1 self))
              (refresh_failure_attempts_threshold cfg)); [reflexivity | lia].
Qed.

Lemma missing_backup_token_ends_refresh_witness :
  let cfg := with_policy default_config 0 true 5 in
  let w := scenario_world always_error in
  (refresh_failure_attempts_threshold cfg <= _refresh_failure_count (providers w 0)
   /\ auto_switch_backup_on_failure cfg = true
   /\ extra_attrs cfg !! "backup_token" = None)
  /\ DefaultTokenProvider._async_refresh_token
       cfg (dispatch := SpecProvider.expiry_only) 9 0 w
     = (inl (AttributeError "backup_token"),
        set_trace
          [ Log ERROR MsgMalformedResponse;
            Log ERROR (MsgAutoRefreshError ValueError);
            Post "default_refresh_url" (PyStr "tok") (Sha256.hexdigest "tok") ]
          (snd (DefaultTokenProvider.refresh_try
                  cfg (dispatch := SpecProvider.expiry_only) 0 w))).
Proof.
  intros cfg w.
  assert (Hthr : refresh_failure_attempts_threshold cfg
                 <= _refresh_failure_count
                      (providers (snd (DefaultTokenProvider.refresh_try
                                         cfg (dispatch := SpecProvider.expiry_only) 0 w)) 0))
    by (vm_compute; discriminate).
  split; [repeat split; vm_compute; discriminate|].
  exact (missing_backup_token_ends_refresh cfg SpecProvider.expiry_only 8 0%nat w
           _ ValueError eq_refl Hthr eq_refl eq_refl).
Defined.

(** ** The two memoized methods, in general *)

(** X6. What [generate_signature()] has returned once for a provider it
    returns from then on: after [_update_current_token] has replaced the
    token by any other value, the next call still returns the first
    signature, and changes nothing. *)
Theorem signature_survives_token_update :
  forall (cfg : HandleTokenConfig) (self : nat) (w w1 : World) (s : string)
         (new_token : pyval),
    DefaultTokenProvider.generate_signature self w = (inr s, w1) ->
    let updated :=
      snd (DefaultTokenProvider._update_current_token cfg self new_token w1) in
    _current_token (providers updated self) = new_token
    /\ DefaultTokenProvider.generate_signature self updated = (inr s, updated).
Proof.
  intros cfg self w w1 s new_token Hrun updated.
  split.
  - subst updated.
    unfold DefaultTokenProvider._update_current_token, bind, time_time,
      put_provider, modify.
    cbn. rewrite fn_lookup_insert. reflexivity.
  - destruct (generate_signature_is_permanent self w w1 s Hrun) as [_ Hperm].
    apply Hperm. reflexivity.
Qed.

Lemma signature_survives_token_update_witness :
  let w := scenario_world always_error in
  let signed := DefaultTokenProvider.generate_signature 0 w in
  let updated :=
    snd (DefaultTokenProvider._update_current_token
           default_config 0 (PyStr "other") (snd signed)) in
  fst signed = inr (Sha256.hexdigest "tok")
  /\ _current_token (providers updated 0) = PyStr "other"
  /\ DefaultTokenProvider.generate_signature 0 updated
     = (inr (Sha256.hexdigest "tok"), updated).
Proof.
  intros w signed updated.
  split; [reflexivity|].
  exact (signature_survives_token_update default_config 0%nat w (snd signed)
           (Sha256.hexdigest "tok") (PyStr "other") eq_refl).
Defined.

(** X7. What [get_token()] has returned once for a manager it returns
    from then on, in every later world that still has the memo table,
    whatever has become of the manager, of its provider and of the clock:
    the call returns the same value and changes nothing, so it neither
    asks the provider nor refreshes. *)
Theorem get_token_answer_is_permanent :
  forall (d : TokenProvider.t) (self : nat) (w w1 : World) (v : pyval),
    TokenManager.get_token self w = (inr v, w1) ->
    forall w2 : World,
      get_token_cache w2 = get_token_cache w1 ->
      TokenManager.get_token self w2 = (inr v, w2).
Proof.
  intros d self w w1 v Hrun w2 Heq.
  exact (get_token_is_permanent self w w1 v Hrun w2 Heq).
Qed.

Lemma get_token_answer_is_permanent_witness :
  let d := SpecProvider.dispatch default_config 1 in
  let w := with_manager 0 scenario_manager (scenario_world always_error) in
  let first := TokenManager.get_token (dispatch := d) 0 w in
  let later :=
    with_provider 0 (mkProvider PyNone 0 0 0)
      (with_manager 0 (mkManager 0 PyNone false (PyStr "") true) (snd first)) in
  fst first = inr (PyStr "tok")
  /\ TokenManager.get_token (dispatch := d) 0 later = (inr (PyStr "tok"), later).
Proof.
  intros d w first later.
  split; [reflexivity|].
  exact (get_token_answer_is_permanent d 0%nat w (snd first) (PyStr "tok")
           eq_refl later eq_refl).
Defined.

(** ** The manager: the body of [get_token] *)

Lemma set_cached_run (self : nat) (tok : pyval) (w : World) :
  TokenManager.set_cached self tok w
  = (inr tt,
     set_managers
       (<[self := mkManager (_token_provider (managers w self)) tok
                    (_on_token_updated (managers w self))
                    (_backup_token (managers w self))
                    (invalid (managers w self))]> (managers w)) w).
Proof. reflexivity. Qed.




(** X9. As the class is written, the body of [get_token] raises
    [NotImplementedError] whenever the manager's cache holds anything but
    [None], and then changes nothing: the provider's [is_token_expired()]
    is called outside the [try]. With the cache at [None] it does not
    raise: the failed refresh is logged, and the answer, which is also
    left in the cache, is the backup token if that is not empty and
    [None] otherwise. *)
Theorem get_token_body_as_written :
  forall (self : nat) (w : World),
    let m := managers w self in
    let run := TokenManager.get_token_body (dispatch := TokenProvider.base) self w in
    if is_None (_cached_current_token m)
    then fst run = inr (if truthy (_backup_token m) then _backup_token m else PyNone)
         /\ _cached_current_token (managers (snd run) self)
            = (if truthy (_backup_token m) then _backup_token m else PyNone)
         /\ refresh_calls (snd run)
            = CallRefreshToken (_token_provider m) :: refresh_calls w
    else run = (inl NotImplementedError, w).
Proof.
  intros self w m run. subst run m.
  unfold TokenManager.get_token_body, TokenManager.set_cached,
    provider_refresh_token, try_except, TokenManager._handle_error, log,
    emit, modify, bind, get_manager, put_manager, gets, ret, raise.
  cbn.
  destruct (_cached_current_token (managers w self)) eqn:Hc; cbn;
    [|reflexivity..].
  destruct (truthy (_backup_token (managers w self))) eqn:Hb; cbn.
  - rewrite fn_lookup_insert. cbn. repeat split; reflexivity.
  - rewrite Hc. repeat split; reflexivity.
Qed.

(** X24. When the manager's cache holds a token, the body of [get_token]
    lets the provider's [is_token_expired()] decide, outside of any
    [try]: if that answers false, the cached token is returned and
    nothing else is done, so no refresh is called; if it raises, the
    exception reaches the caller of [get_token] and the backup token is
    not considered. (The provider's answer is taken not to write the
    manager.) *)
Theorem get_token_body_cached_outcome :
  forall (d : TokenProvider.t) (self : nat) (w w0 : World) (r : exn + bool),
    let m := managers w self in
    _cached_current_token m <> PyNone ->
    TokenProvider.is_token_expired (_token_provider m) w = (r, w0) ->
    managers w0 self = m ->
    r <> inr true ->
    TokenManager.get_token_body self w
    = (match r with
       | inl e => inl e
       | inr _ => inr (_cached_current_token m)
       end, w0).
Proof.
  intros d self w w0 r m Hsome Hexp Hsame Hr. subst m.
  unfold TokenManager.get_token_body, bind, get_manager, gets, ret.
  destruct (_cached_current_token (managers w self)) eqn:Hc; [congruence| | |];
    cbn [is_None]; rewrite Hexp;
    (destruct r as [e|[|]]; [reflexivity | congruence |]);
    rewrite Hsame, Hc; reflexivity.
Qed.

Lemma get_token_body_cached_outcome_witness :
  let d := SpecProvider.dispatch default_config 1 in
  let w := with_manager 0 scenario_manager (scenario_world always_error) in
  let run := TokenManager.get_token_body (dispatch := d) 0 w in
  _cached_current_token (managers w 0) <> PyNone
  /\ fst run = inr (PyStr "tok")
  /\ refresh_calls (snd run) = [].
Proof.
  intros d w run. subst run.
  assert (Hsome : _cached_current_token (managers w 0) <> PyNone)
    by (vm_compute; discriminate).
  assert (Hr : @inr exn bool false <> inr true) by discriminate.
  pose proof (get_token_body_cached_outcome d 0%nat w
                (snd (SpecProvider.is_token_expired 0 w)) (inr false)
                Hsome eq_refl eq_refl Hr) as H.
  split; [exact Hsome|]. rewrite H. split; reflexivity.
Defined.

(** ** The manager: the manual refresh *)

(** X10. [manual_refresh_token()] returns what the provider's
    [refresh_token()] returns and raises what it raises. It calls the
    [on_token_updated] callback, once, exactly when a callback was given
    and the token returned is truthy; and it stores the token nowhere:
    the manager objects and the memo table of [get_token] are as the
    provider's call left them. (The provider's call is taken not to write
    the managers.) *)
Theorem manual_refresh_token_outcome :
  forall (d : TokenProvider.t) (self : nat) (w w1 : World) (r : exn + pyval),
    provider_refresh_token (_token_provider (managers w self)) w = (r, w1) ->
    managers w1 = managers w ->
    let run := TokenManager.manual_refresh_token self w in
    fst run = r
    /\ managers (snd run) = managers w
    /\ get_token_cache (snd run) = get_token_cache w1
    /\ trace (snd run)
       = match r with
         | inr tok =>
             if truthy tok && _on_token_updated (managers w self)
             then Notify self tok :: trace w1
             else trace w1
         | inl _ => trace w1
         end.
Proof.
  intros d self w w1 r Hrefresh Hsame run. subst run.
  unfold TokenManager.manual_refresh_token, TokenManager.refresh_token,
    bind, get_manager, gets, ret.
  cbn -[provider_refresh_token]. rewrite Hrefresh.
  destruct r as [e|tok]; cbn; [repeat split; assumption|].
  rewrite Hsame.
  destruct (truthy tok && _on_token_updated (managers w self)); cbn;
    repeat split; assumption.
Qed.

Lemma manual_refresh_token_outcome_witness :
  let d := SpecProvider.dispatch default_config 1 in
  let net := fun _ : nat => HttpJson {[ "token" := PyStr "new" ]} in
  let w :=
    with_manager 0 (mkManager 0 (PyStr "tok") true (PyStr "") false)
      (scenario_world net) in
  let run := TokenManager.manual_refresh_token (dispatch := d) 0 w in
  fst run = inr (PyStr "new")
  /\ _cached_current_token (managers (snd run) 0) = PyStr "tok"
  /\ trace (snd run)
     = [ Notify 0 (PyStr "new");
         Post "default_refresh_url" (PyStr "tok") (Sha256.hexdigest "tok");
         CallRefreshToken 0 ].
Proof.
  intros d net w run. subst run.
  pose proof (manual_refresh_token_outcome d 0%nat w
                (snd (provider_refresh_token (dispatch := d) 0 w))
                (inr (PyStr "new"))) as H.
  cbv zeta in H.
  match type of H with
  | ?A -> _ => assert (H1 : A) by (vm_compute; reflexivity); specialize (H H1)
  end.
  match type of H with
  | ?A -> _ => assert (H2 : A) by (vm_compute; reflexivity); specialize (H H2)
  end.
  destruct H as (Hr & Hm & _ & Ht).
  split; [exact Hr|]. split; [rewrite Hm; reflexivity|].
  rewrite Ht. vm_compute. reflexivity.
Defined.

(** ** The manager: the background task *)

Lemma manager_handle_error_run (e : exn) (w : World) :
  TokenManager._handle_error e w
  = (inr tt,
     set_trace (Log ERROR (DefaultTokenProvider.classify e)
                :: Log ERROR (MsgAutoRefreshError e) :: trace w) w).
Proof. reflexivity. Qed.

(** A [try] whose handler is [_handle_error] never raises. *)
Lemma try_handle_error_returns (body : M unit) (w : World) :
  exists w', try_except body (fun e => TokenManager._handle_error e) w = (inr tt, w').
Proof.
  unfold try_except.
  destruct (body w) as [[e|[]] w1]; [|eauto].
  rewrite manager_handle_error_run. eauto.
Qed.

Lemma auto_refresh_pass_raises (cfg : HandleTokenConfig) (d : TokenProvider.t)
    (depth self : nat) (w : World) :
  fst (TokenManager.auto_refresh_pass cfg depth self w)
  = inl (AttributeError "config").
Proof.
  unfold TokenManager.auto_refresh_pass. unfold bind at 1.
  destruct (is_token_expired_frame self w) as (b & n & Hrun & _).
  rewrite Hrun. unfold bind at 1.
  destruct b.
  - match goal with
    | |- context [try_except ?body _ _] =>
        destruct (try_handle_error_returns body (set_ticks n w)) as [w' Hw']
    end.
    rewrite Hw'. reflexivity.
  - reflexivity.
Qed.

Lemma auto_refresh_stops (cfg : HandleTokenConfig) (d : TokenProvider.t)
    (depth passes self : nat) (w : World) :
  TokenManager._auto_refresh_token cfg depth (S passes) self w
  = TokenManager.auto_refresh_pass cfg depth self w.
Proof.
  cbn [TokenManager._auto_refresh_token]. unfold bind at 1.
  pose proof (auto_refresh_pass_raises cfg d depth self w) as H.
  destruct (TokenManager.auto_refresh_pass cfg depth self w) as [[e|[]] w1];
    cbn in H; [reflexivity | discriminate].
Qed.


Lemma refresh_except_logs (cfg : HandleTokenConfig) (self : nat) (e : exn)
    (w : World) :
  notifications (snd (DefaultTokenProvider.refresh_except cfg self e w))
  = notifications w.
Proof.
  unfold DefaultTokenProvider.refresh_except, DefaultTokenProvider._handle_error,
    config_extra, bind, get_provider, gets, put_provider, modify, time_time,
    log, emit, ret, raise.
  cbn.
  destruct (_ >=? _); [|reflexivity].
  destruct (auto_switch_backup_on_failure cfg); [|reflexivity].
  destruct (extra_attrs cfg !! "backup_token") as [b|]; [|reflexivity].
  destruct (truthy b); reflexivity.
Qed.

Lemma async_refresh_as_written_notifies (cfg : HandleTokenConfig)
    (depth self : nat) :
  forall w : World,
    notifications
      (snd (DefaultTokenProvider._async_refresh_token
              cfg (dispatch := TokenProvider.base) depth self w))
    = notifications w.
Proof.
  induction depth as [|depth IH]; intros w; [reflexivity|].
  cbn [DefaultTokenProvider._async_refresh_token]. unfold try_except.
  change (DefaultTokenProvider.refresh_try cfg (dispatch := TokenProvider.base) self w)
    with (@inl exn pyval NotImplementedError, w).
  cbn iota beta. unfold bind.
  pose proof (refresh_except_logs cfg self NotImplementedError w) as Hn.
  destruct (DefaultTokenProvider.refresh_except cfg self NotImplementedError w)
    as [[e|[]] w1]; cbn [fst snd] in Hn |- *; [exact Hn|].
  rewrite IH. exact Hn.
Qed.

Lemma auto_refresh_pass_as_written (cfg : HandleTokenConfig)
    (depth self : nat) (w : World) :
  exists w',
    TokenManager.auto_refresh_pass cfg (dispatch := TokenProvider.base) depth self w
    = (inl (AttributeError "config"), w')
    /\ managers w' = managers w
    /\ posts w' = posts w
    /\ get_token_cache w' = get_token_cache w
    /\ notifications w' = notifications w.
Proof.
  unfold TokenManager.auto_refresh_pass, try_except, bind, get_manager, gets.
  rewrite is_token_expired_run.
  assert (Hrefresh : forall w0 : World,
             managers w0 = managers w -> posts w0 = posts w ->
             get_token_cache w0 = get_token_cache w ->
             notifications w0 = notifications w ->
             exists e w1,
               DefaultTokenProvider._async_refresh_token
                 cfg (dispatch := TokenProvider.base) depth
                 (_token_provider (managers w0 self)) w0 = (inl e, w1)
               /\ managers w1 = managers w /\ posts w1 = posts w
               /\ get_token_cache w1 = get_token_cache w
               /\ notifications w1 = notifications w).
  { intros w0 Hm0 Hp0 Hg0 Hn0.
    destruct (async_refresh_as_written_frame cfg depth
                (_token_provider (managers w0 self)) w0)
      as (He & Hp & _ & Hm & _ & Hg).
    pose proof (async_refresh_as_written_notifies cfg depth
                  (_token_provider (managers w0 self)) w0) as Hn.
    destruct (DefaultTokenProvider._async_refresh_token cfg depth
                (_token_provider (managers w0 self)) w0) as [[e|v] w1];
      cbn [fst snd] in He, Hp, Hm, Hg, Hn;
      [|destruct He; discriminate].
    exists e, w1. split; [reflexivity|]. repeat split; congruence. }
  destruct (negb (fetcher_expiry w self =? 0)).
  - destruct (clock w (ticks w) >? fetcher_expiry w self).
    + destruct (Hrefresh (set_ticks (S (ticks w)) w) eq_refl eq_refl eq_refl eq_refl)
        as (e & w1 & Hrun & Hm & Hp & Hg & Hn).
      rewrite Hrun. rewrite manager_handle_error_run. cbn.
      eexists. split; [reflexivity|]. cbn. repeat split; assumption.
    + eexists. split; [reflexivity|]. repeat split; reflexivity.
  - destruct (Hrefresh w eq_refl eq_refl eq_refl eq_refl)
      as (e & w1 & Hrun & Hm & Hp & Hg & Hn).
    rewrite Hrun. rewrite manager_handle_error_run. cbn.
    eexists. split; [reflexivity|]. cbn. repeat split; assumption.
Qed.

(** X12. As the class is written, the background task does nothing for
    the manager before it ends: the refresh it attempts when the token is
    expired never returns a token, so no POST is sent, no manager's cache
    is written, the memo table of [get_token] is untouched and no
    callback is called. *)
Theorem auto_refresh_task_as_written :
  forall (cfg : HandleTokenConfig) (depth passes self : nat) (w : World),
    let run :=
      TokenManager._auto_refresh_token
        cfg (dispatch := TokenProvider.base) depth (S passes) self w in
    managers (snd run) = managers w
    /\ posts (snd run) = posts w
    /\ get_token_cache (snd run) = get_token_cache w
    /\ notifications (snd run) = notifications w.
Proof.
  intros cfg depth passes self w run. subst run.
  rewrite (auto_refresh_stops cfg TokenProvider.base depth passes self w).
  destruct (auto_refresh_pass_as_written cfg depth self w) as (w' & Hrun & H).
  rewrite Hrun. exact H.
Qed.

(** ** The pool: releasing a fetcher *)

Lemma existsb_eqb_In (f : nat) (l : list nat) :
  existsb (Nat.eqb f) l = true <-> In f l.
Proof.
  rewrite existsb_exists. split.
  - intros (x & Hin & Heq). apply Nat.eqb_eq in Heq. subst. exact Hin.
  - intros Hin. exists f. split; [exact Hin | apply Nat.eqb_refl].
Qed.

Lemma pool_handle_error_run (e : exn) (w : World) :
  TokenFetcherPool._handle_error e w
  = (inr tt,
     set_trace (Log ERROR (DefaultTokenProvider.classify e)
                :: Log ERROR (MsgConcurrentRefreshError e) :: trace w) w).
Proof. reflexivity. Qed.

Lemma release_member (d : TokenProvider.t) (self fetcher : nat) (w : World) :
  In fetcher (_token_fetchers (pools w self)) ->
  TokenFetcherPool.release_token_fetcher self fetcher w = (inr tt, w).
Proof.
  intros Hin. apply existsb_eqb_In in Hin.
  unfold TokenFetcherPool.release_token_fetcher, bind, get_pool, gets, ret.
  rewrite Hin. reflexivity.
Qed.

Lemma release_foreign (d : TokenProvider.t) (self fetcher : nat)
    (w w1 : World) (r : exn + pyval) :
  TokenManager.refresh_token fetcher w = (r, w1) ->
  pools w1 self = pools w self ->
  ~ In fetcher (_token_fetchers (pools w self)) ->
  exists w',
    TokenFetcherPool.release_token_fetcher self fetcher w = (inr tt, w')
    /\ pools w' self
       = mkPool (_token_fetchers (pools w self) ++ [fetcher])
           (_concurrent_refresh_executor (pools w self))
           (_retry_count (pools w self)) (_max_retry (pools w self))
    /\ trace w'
       = match r with
         | inl e => Log ERROR (DefaultTokenProvider.classify e)
                    :: Log ERROR (MsgConcurrentRefreshError e) :: trace w1
         | inr _ => trace w1
         end.
Proof.
  intros Hrefresh Hsame Hnotin.
  assert (Hex : existsb (Nat.eqb fetcher) (_token_fetchers (pools w self)) = false).
  { destruct (existsb _ _) eqn:H; [|reflexivity].
    apply existsb_eqb_In in H. contradiction. }
  unfold TokenFetcherPool.release_token_fetcher, try_except, bind, get_pool,
    put_pool, gets, modify, ret.
  rewrite Hex, Hrefresh.
  destruct r as [e|v].
  - rewrite pool_handle_error_run. cbn.
    eexists. split; [reflexivity|]. cbn.
    rewrite fn_lookup_insert, Hsame. split; reflexivity.
  - eexists. split; [reflexivity|]. cbn.
    rewrite fn_lookup_insert, Hsame. split; reflexivity.
Qed.

(** X13. [release_token_fetcher(fetcher)] never raises. For a fetcher
    that the pool holds it does nothing at all: no refresh, no change.
    For any other fetcher it calls [refresh_token()] on it once and adds
    it at the end of the pool's list whether the refresh succeeded or
    not; a failure is only logged. Releasing the same fetcher once more
    then changes nothing. (The refresh is taken not to write the pool.) *)
Theorem release_token_fetcher_outcome :
  forall (d : TokenProvider.t) (self fetcher : nat) (w w1 : World)
         (r : exn + pyval),
    TokenManager.refresh_token fetcher w = (r, w1) ->
    pools w1 self = pools w self ->
    let pl := pools w self in
    let run := TokenFetcherPool.release_token_fetcher self fetcher w in
    (In fetcher (_token_fetchers pl) -> run = (inr tt, w))
    /\ (~ In fetcher (_token_fetchers pl) ->
        fst run = inr tt
        /\ pools (snd run) self
           = mkPool (_token_fetchers pl ++ [fetcher])
               (_concurrent_refresh_executor pl) (_retry_count pl) (_max_retry pl)
        /\ trace (snd run)
           = match r with
             | inl e => Log ERROR (DefaultTokenProvider.classify e)
                        :: Log ERROR (MsgConcurrentRefreshError e) :: trace w1
             | inr _ => trace w1
             end
        /\ TokenFetcherPool.release_token_fetcher self fetcher (snd run)
           = (inr tt, snd run)).
Proof.
  intros d self fetcher w w1 r Hrefresh Hsame pl run. subst pl run.
  split; [apply release_member|].
  intros Hnotin.
  destruct (release_foreign d self fetcher w w1 r Hrefresh Hsame Hnotin)
    as (w' & Hrun & Hpool & Htrace).
  rewrite Hrun. cbn [fst snd].
  split; [reflexivity|]. split; [exact Hpool|]. split; [exact Htrace|].
  apply release_member. rewrite Hpool. cbn.
  apply in_or_app. right. left. reflexivity.
Qed.

Lemma release_token_fetcher_outcome_witness :
  let d := TokenProvider.base in
  let w := scenario_pool (mkExecutor 2 0 0) 1 always_error in
  let w2 := with_manager 2 scenario_manager w in
  let run := TokenFetcherPool.release_token_fetcher (dispatch := d) 0 2 w2 in
  TokenFetcherPool.release_token_fetcher (dispatch := d) 0 1 w2 = (inr tt, w2)
  /\ ~ In 2%nat (_token_fetchers (pools w2 0))
  /\ fst run = inr tt
  /\ _token_fetchers (pools (snd run) 0) = [0; 1; 2]%nat
  /\ TokenFetcherPool.release_token_fetcher (dispatch := d) 0 2 (snd run)
     = (inr tt, snd run).
Proof.
  intros d w w2 run. subst run.
  pose proof (release_token_fetcher_outcome d 0%nat) as H.
  assert (Hnotin : ~ In 2%nat (_token_fetchers (pools w2 0)))
    by (cbn; intros [H0|[H0|[]]]; discriminate).
  split.
  - destruct (H 1%nat w2 _ _ eq_refl eq_refl) as [H1 _].
    apply H1. vm_compute. right. left. reflexivity.
  - split; [exact Hnotin|].
    destruct (H 2%nat w2 _ _ eq_refl eq_refl) as [_ H2].
    destruct (H2 Hnotin) as (Hr & Hp & _ & Hagain).
    split; [exact Hr|]. split; [rewrite Hp; reflexivity | exact Hagain].
Defined.

(** X14. A release keeps the pool's list in order and free of
    duplicates: the list after it is the list before it with at most the
    released fetcher added at the end; the released fetcher is in it; and
    if no fetcher occurred twice before, none does after. *)
Theorem release_token_fetcher_keeps_list :
  forall (d : TokenProvider.t) (self fetcher : nat) (w w1 : World)
         (r : exn + pyval),
    TokenManager.refresh_token fetcher w = (r, w1) ->
    pools w1 self = pools w self ->
    let before := _token_fetchers (pools w self) in
    let after :=
      _token_fetchers
        (pools (snd (TokenFetcherPool.release_token_fetcher self fetcher w)) self) in
    (after = before \/ after = before ++ [fetcher])
    /\ In fetcher after
    /\ (List.NoDup before -> List.NoDup after).
Proof.
  intros d self fetcher w w1 r Hrefresh Hsame before after. subst before after.
  destruct (in_dec Nat.eq_dec fetcher (_token_fetchers (pools w self)))
    as [Hin|Hnotin].
  - rewrite (release_member d self fetcher w Hin). cbn [snd].
    split; [left; reflexivity|]. split; [exact Hin|]. intros H; exact H.
  - destruct (release_foreign d self fetcher w w1 r Hrefresh Hsame Hnotin)
      as (w' & Hrun & Hpool & _).
    rewrite Hrun. cbn [snd]. rewrite Hpool. cbn.
    split; [right; reflexivity|].
    split; [apply in_or_app; right; left; reflexivity|].
    intros Hnd. apply List.NoDup_app.
    + exact Hnd.
    + repeat constructor. intros [].
    + intros x Hx [<-|[]]. contradiction.
Qed.

Lemma release_token_fetcher_keeps_list_witness :
  let d := SpecProvider.dispatch default_config 1 in
  let net := fun _ : nat => HttpJson {[ "token" := PyStr "new" ]} in
  let w := with_manager 2 scenario_manager
             (scenario_pool (mkExecutor 2 0 0) 1 net) in
  let after :=
    _token_fetchers
      (pools (snd (TokenFetcherPool.release_token_fetcher (dispatch := d) 0 2 w)) 0) in
  List.NoDup [0; 1]%nat
  /\ In 2%nat after /\ List.NoDup after.
Proof.
  intros d net w after. subst after.
  assert (Hnd : List.NoDup (_token_fetchers (pools w 0))).
  { cbn. repeat constructor; cbn; intros H; intuition discriminate. }
  split; [exact Hnd|].
  pose proof (release_token_fetcher_keeps_list d 0%nat 2%nat w
                (snd (TokenManager.refresh_token (dispatch := d) 2 w))
                (inr (PyStr "new"))) as H.
  cbv zeta in H.
  match type of H with
  | ?A -> _ => assert (H1 : A) by (vm_compute; reflexivity); specialize (H H1)
  end.
  match type of H with
  | ?A -> _ => assert (H2 : A) by (vm_compute; reflexivity); specialize (H H2)
  end.
  destruct H as (_ & Hin & Hkeep).
  split; [exact Hin | exact (Hkeep Hnd)].
Defined.

(** ** The pool: the scan reads, and reads nothing but expiry times *)

Lemma set_ticks_same (w : World) : set_ticks (ticks w) w = w.
Proof. destruct w; reflexivity. Qed.

Lemma scan_frame (fetchers : list nat) :
  forall w : World,
  exists r n,
    TokenFetcherPool.scan fetchers w = (inr r, set_ticks n w)
    /\ (ticks w <= n <= ticks w + length fetchers)%nat.
Proof.
  induction fetchers as [|f rest IH]; intros w.
  - exists None, (ticks w). rewrite set_ticks_same.
    split; [reflexivity | cbn; lia].
  - cbn [TokenFetcherPool.scan]. unfold bind.
    rewrite is_token_expired_run.
    destruct (negb (fetcher_expiry w f =? 0)).
    + destruct (clock w (ticks w) >? fetcher_expiry w f); cbn [negb].
      * destruct (IH (set_ticks (S (ticks w)) w)) as (r & n & Hrun & Hn).
        exists r, n. rewrite Hrun. split; [reflexivity|].
        cbn in Hn |- *. lia.
      * exists (Some f), (S (ticks w)). split; [reflexivity | cbn; lia].
    + cbn [negb]. destruct (IH w) as (r & n & Hrun & Hn).
      exists r, n. rewrite Hrun. split; [reflexivity | cbn; lia].
Qed.

(** X15. [get_token_fetcher()] only looks: whatever the pool, the world
    after it is the world before it but for the number of clock readings,
    and it reads the clock at most once for each fetcher of the pool. No
    object is changed, nothing is logged and no provider is called. *)
Theorem get_token_fetcher_only_reads :
  forall (self : nat) (w : World),
  exists r n,
    TokenFetcherPool.get_token_fetcher self w = (inr r, set_ticks n w)
    /\ (ticks w <= n <= ticks w + length (_token_fetchers (pools w self)))%nat.
Proof.
  intros self w.
  unfold TokenFetcherPool.get_token_fetcher, bind, get_pool, gets.
  apply scan_frame.
Qed.

(** X16. [get_token_fetcher()] never reads the [invalid] attribute: for
    every pool and world, setting that attribute on the managers in any
    other way changes nothing in the fetcher it returns. *)
Theorem get_token_fetcher_never_reads_invalid :
  forall (flags : nat -> bool) (self : nat) (w : World),
    fst (TokenFetcherPool.get_token_fetcher self (mark_all flags w))
    = fst (TokenFetcherPool.get_token_fetcher self w).
Proof.
  intros flags self w. apply get_token_fetcher_ignores_invalid.
Qed.

(** ** The pool: the bulk refresh of the class as it is written *)

Lemma task_start_without_budget (cfg : HandleTokenConfig) (self f : nat)
    (w : World) (m : Z) :
  _max_retry (pools w self) = PyInt m ->
  m <= _retry_count (pools w self) ->
  TokenFetcherPool.task_start cfg (dispatch := TokenProvider.base) self f w
  = (inr (TokenFetcherPool.Finished PyNone), failed_refresh f w).
Proof.
  intros Hmax Hle.
  unfold TokenFetcherPool.task_start, TokenManager.refresh_token,
    provider_refresh_token, TokenFetcherPool._handle_error,
    TokenFetcherPool.mark_invalid, try_except, bind, get_manager, put_manager,
    get_pool, gets, modify, log, emit, ret, raise.
  cbn. rewrite Hmax. cbn.
  destruct (Z.ltb_spec (_retry_count (pools w self)) m); [lia | reflexivity].
Qed.

Lemma task_start_with_budget (cfg : HandleTokenConfig) (self f : nat)
    (w : World) (m dl : Z) :
  _max_retry (pools w self) = PyInt m ->
  _retry_count (pools w self) < m ->
  extra_attrs cfg !! "retry_delay" = Some (PyInt dl) ->
  TokenFetcherPool.task_start cfg (dispatch := TokenProvider.base) self f w
  = (inr (TokenFetcherPool.Sleeping dl),
     set_trace (Sleep dl :: trace (failed_refresh f w)) (failed_refresh f w)).
Proof.
  intros Hmax Hlt Hdelay.
  unfold TokenFetcherPool.task_start, TokenManager.refresh_token,
    provider_refresh_token, TokenFetcherPool._handle_error,
    TokenFetcherPool.mark_invalid, config_extra, try_except, bind, get_manager,
    put_manager, get_pool, gets, modify, log, emit, ret, raise.
  cbn. rewrite Hmax. cbn.
  destruct (Z.ltb_spec (_retry_count (pools w self)) m); [|lia].
  rewrite Hdelay. reflexivity.
Qed.

Lemma set_invalid_twice (b : bool) (o : TokenManagerObj) :
  set_invalid b (set_invalid b o) = set_invalid b o.
Proof. reflexivity. Qed.

Lemma all_failed_nil (w : World) : all_failed [] w w.
Proof. repeat split; reflexivity. Qed.

Lemma all_failed_cons (f : nat) (rest : list nat) (w w1 w' : World) :
  pools w1 = pools w -> providers w1 = providers w -> posts w1 = posts w ->
  managers w1 = <[f := set_invalid true (managers w f)]> (managers w) ->
  length (refresh_calls w1) = S (length (refresh_calls w)) ->
  all_failed rest w1 w' ->
  all_failed (f :: rest) w w'.
Proof.
  intros Hpl Hps Hpo Hms Hcalls (Hpl' & Hps' & Hpo' & Hms' & Hcalls').
  repeat split; try congruence.
  - intros g. rewrite Hms', Hms. unfold is_member. cbn [existsb].
    destruct (Nat.eqb_spec g f) as [->|Hne]; cbn [orb].
    + rewrite fn_lookup_insert.
      destruct (existsb (Nat.eqb f) rest); reflexivity.
    + rewrite fn_lookup_insert_ne by congruence. reflexivity.
  - rewrite Hcalls', Hcalls. cbn. lia.
Qed.

Lemma start_all_without_budget (cfg : HandleTokenConfig) (self : nat) (m : Z)
    (fetchers : list nat) :
  forall w : World,
    _max_retry (pools w self) = PyInt m ->
    m <= _retry_count (pools w self) ->
    exists w',
      TokenFetcherPool.start_all cfg (dispatch := TokenProvider.base) self fetchers w
      = (inr (map (fun f => (f, inr (TokenFetcherPool.Finished PyNone))) fetchers), w')
      /\ all_failed fetchers w w'.
Proof.
  induction fetchers as [|f rest IH]; intros w Hmax Hle.
  - exists w. split; [reflexivity | apply all_failed_nil].
  - cbn [TokenFetcherPool.start_all map]. unfold bind at 1.
    unfold TokenFetcherPool.settle at 1.
    rewrite (task_start_without_budget cfg self f w m Hmax Hle).
    unfold bind at 1.
    destruct (IH (failed_refresh f w) Hmax Hle) as (w' & Hrun & Hall).
    rewrite Hrun. exists w'. split; [reflexivity|].
    apply (all_failed_cons f rest w (failed_refresh f w) w');
      try reflexivity; exact Hall.
Qed.

Lemma start_all_with_budget (cfg : HandleTokenConfig) (self : nat) (m dl : Z)
    (fetchers : list nat) :
  forall w : World,
    _max_retry (pools w self) = PyInt m ->
    _retry_count (pools w self) < m ->
    extra_attrs cfg !! "retry_delay" = Some (PyInt dl) ->
    exists w',
      TokenFetcherPool.start_all cfg (dispatch := TokenProvider.base) self fetchers w
      = (inr (map (fun f => (f, inr (TokenFetcherPool.Sleeping dl))) fetchers), w')
      /\ all_failed fetchers w w'
      /\ loop_lag w' = loop_lag w
      /\ length (trace w') = (length (trace w) + 4 * length fetchers)%nat.
Proof.
  induction fetchers as [|f rest IH]; intros w Hmax Hlt Hdelay.
  - exists w. split; [reflexivity|]. split; [apply all_failed_nil|].
    split; [reflexivity | cbn; lia].
  - cbn [TokenFetcherPool.start_all map]. unfold bind at 1.
    unfold TokenFetcherPool.settle at 1.
    rewrite (task_start_with_budget cfg self f w m dl Hmax Hlt Hdelay).
    unfold bind at 1.
    destruct (IH (set_trace (Sleep dl :: trace (failed_refresh f w))
                    (failed_refresh f w)) Hmax Hlt Hdelay)
      as (w' & Hrun & Hall & Hlag & Hlen).
    rewrite Hrun. exists w'. split; [reflexivity|].
    split; [|split].
    + apply (all_failed_cons f rest w
               (set_trace (Sleep dl :: trace (failed_refresh f w))
                  (failed_refresh f w)) w');
        try reflexivity; exact Hall.
    + rewrite Hlag. reflexivity.
    + rewrite Hlen. cbn. lia.
Qed.

Lemma resume_all_finished (d : TokenProvider.t) (self : nat) (lag : nat)
    (pending : option nat) (fetchers : list nat) (w : World) :
  TokenFetcherPool.resume_all self lag pending
    (map (fun f => (f, inr (TokenFetcherPool.Finished PyNone))) fetchers) w
  = (inr [], w).
Proof.
  induction fetchers as [|f rest IH]; [reflexivity|].
  cbn [map TokenFetcherPool.resume_all]. exact IH.
Qed.

Lemma task_resume_as_written (self f : nat) (w : World) :
  exists w1,
    TokenFetcherPool.task_resume (dispatch := TokenProvider.base) self f w
    = (inl NotImplementedError, w1)
    /\ _retry_count (pools w1 self) = _retry_count (pools w self) + 1
    /\ _max_retry (pools w1 self) = _max_retry (pools w self)
    /\ _token_fetchers (pools w1 self) = _token_fetchers (pools w self)
    /\ managers w1 = managers w
    /\ posts w1 = posts w
    /\ length (refresh_calls w1) = S (length (refresh_calls w)).
Proof.
  eexists. split; [reflexivity|]. cbn.
  rewrite fn_lookup_insert. repeat split; reflexivity.
Qed.

(** The tasks of the class as it is written, resumed: each one that runs
    adds one to the retry counter and fails. *)
Lemma resume_all_as_written (self : nat) (lag : nat) (dl : Z)
    (fetchers : list nat) :
  forall (pending : option nat) (w : World),
  exists w',
    let k :=
      resumed_within (TokenFetcherPool.waits_for_timer dl) lag pending
        (length fetchers) in
    TokenFetcherPool.resume_all (dispatch := TokenProvider.base) self lag pending
      (map (fun f => (f, inr (TokenFetcherPool.Sleeping dl))) fetchers) w
    = (inr (repeat (inl NotImplementedError) k), w')
    /\ _retry_count (pools w' self) = _retry_count (pools w self) + Z.of_nat k
    /\ managers w' = managers w
    /\ posts w' = posts w
    /\ length (refresh_calls w') = (k + length (refresh_calls w))%nat.
Proof.
  induction fetchers as [|f rest IH]; intros pending w.
  - exists w. cbn zeta.
    replace (resumed_within _ lag pending (length (@nil nat))) with 0%nat
      by (unfold resumed_within; cbn;
          destruct (TokenFetcherPool.waits_for_timer dl); [|reflexivity];
          destruct pending; reflexivity).
    split; [reflexivity|]. cbn. repeat split; lia.
  - cbn [map TokenFetcherPool.resume_all length].
    destruct (TokenFetcherPool.waits_for_timer dl) eqn:Htimer; cbn [andb].
    + destruct pending as [[|k]|]; cbn [TokenFetcherPool.delivered].
      * destruct (IH (Some 0%nat) w) as (w' & Hrun & Hrest).
        cbn in Hrun, Hrest. rewrite Nat.min_0_r in Hrun, Hrest.
        exists w'. cbn. split; [exact Hrun | exact Hrest].
      * unfold bind at 1. unfold TokenFetcherPool.settle at 1.
        destruct (task_resume_as_written self f w)
          as (w1 & Hres & Hc1 & _ & _ & Hms1 & Hpo1 & Hcalls1).
        rewrite Hres. cbn [Nat.pred].
        destruct (IH (Some k) w1) as (w' & Hrun & Hc & Hms & Hpo & Hcalls).
        cbn in Hrun, Hc, Hcalls.
        unfold bind at 1. rewrite Hrun.
        exists w'. cbn. split; [reflexivity|].
        repeat split; try congruence.
        -- rewrite Hc, Hc1. lia.
        -- rewrite Hcalls, Hcalls1. lia.
      * unfold bind at 1. unfold TokenFetcherPool.settle at 1.
        destruct (task_resume_as_written self f w)
          as (w1 & Hres & Hc1 & _ & _ & Hms1 & Hpo1 & Hcalls1).
        rewrite Hres.
        destruct (IH (Some lag) w1) as (w' & Hrun & Hc & Hms & Hpo & Hcalls).
        cbn in Hrun, Hc, Hcalls.
        unfold bind at 1. rewrite Hrun.
        exists w'. cbn. split; [reflexivity|].
        repeat split; try congruence.
        -- rewrite Hc, Hc1. lia.
        -- rewrite Hcalls, Hcalls1. lia.
    + unfold bind at 1. unfold TokenFetcherPool.settle at 1.
      destruct (task_resume_as_written self f w)
        as (w1 & Hres & Hc1 & _ & _ & Hms1 & Hpo1 & Hcalls1).
      rewrite Hres.
      assert (Hnext : exists pending' : option nat,
                 match pending, @inl exn pyval NotImplementedError with
                 | Some k, _ => Some (Nat.pred k)
                 | None, inl _ => Some lag
                 | None, inr _ => None
                 end = pending')
        by (eexists; reflexivity).
      destruct Hnext as [pending' Hnext]. cbn zeta. rewrite Hnext.
      destruct (IH pending' w1) as (w' & Hrun & Hc & Hms & Hpo & Hcalls).
      cbn in Hrun, Hc, Hcalls.
      unfold bind at 1. rewrite Hrun.
      exists w'. cbn. split; [reflexivity|].
      repeat split; try congruence.
      * rewrite Hc, Hc1. lia.
      * rewrite Hcalls, Hcalls1. lia.
Qed.

Lemma first_exception_none {A B} (g : A -> B) (l : list A) :
  TokenFetcherPool.first_exception (map (fun a => @inr exn B (g a)) l) = None.
Proof.
  unfold TokenFetcherPool.first_exception.
  replace (List.filter _ (map (fun a => @inr exn B (g a)) l)) with (@nil (exn + B));
    [reflexivity|].
  induction l as [|a l IH]; [reflexivity | exact IH].
Qed.

Lemma first_exception_some {A B} (e : exn) (a : A) (l : list A) :
  TokenFetcherPool.first_exception (map (fun _ => @inl exn B e) (a :: l)) = Some e.
Proof. reflexivity. Qed.

Lemma refresh_token_concurrently_admitted (cfg : HandleTokenConfig)
    (d : TokenProvider.t) (self : nat) (w : World) :
  let ex := _concurrent_refresh_executor (pools w self) in
  (_work_queue_qsize ex <? _max_workers ex * 2) = true ->
  TokenFetcherPool.refresh_token_concurrently cfg self w
  = TokenFetcherPool.gather cfg self (_token_fetchers (pools w self)) w.
Proof.
  intros ex Hadm. subst ex.
  unfold TokenFetcherPool.refresh_token_concurrently,
    TokenFetcherPool._can_refresh_concurrently, bind, get_pool, gets, ret.
  cbn beta zeta. rewrite Hadm. reflexivity.
Qed.

Lemma is_member_In (g : nat) (fetchers : list nat) :
  is_member g fetchers = true <-> In g fetchers.
Proof. apply existsb_eqb_In. Qed.

Lemma all_failed_marks (fetchers : list nat) (w w' : World) :
  all_failed fetchers w w' ->
  (forall g, In g fetchers -> invalid (managers w' g) = true)
  /\ (forall g, ~ In g fetchers -> managers w' g = managers w g).
Proof.
  intros (_ & _ & _ & Hms & _). split; intros g Hg; rewrite Hms.
  - apply is_member_In in Hg. rewrite Hg. reflexivity.
  - destruct (is_member g fetchers) eqn:H; [|reflexivity].
    apply is_member_In in H. contradiction.
Qed.

(** X17. The bulk refresh of the class as it is written, admitted, with
    the retry budget used up ([_retry_count >= _max_retry]): it returns
    normally and no exception reaches the caller, although the refresh of
    every member has failed. Each member's [refresh_token()] was called
    exactly once, every member is marked invalid, and nothing else has
    changed: no other manager, no provider, no pool, and nothing was
    sent. *)
Theorem bulk_refresh_as_written_without_budget :
  forall (cfg : HandleTokenConfig) (self : nat) (w : World) (m : Z),
    let pl := pools w self in
    let ex := _concurrent_refresh_executor pl in
    (_work_queue_qsize ex <? _max_workers ex * 2) = true ->
    _max_retry pl = PyInt m ->
    m <= _retry_count pl ->
    let run :=
      TokenFetcherPool.refresh_token_concurrently
        cfg (dispatch := TokenProvider.base) self w in
    fst run = inr tt
    /\ length (refresh_calls (snd run))
       = (length (_token_fetchers pl) + length (refresh_calls w))%nat
    /\ (forall g, In g (_token_fetchers pl) -> invalid (managers (snd run) g) = true)
    /\ (forall g, ~ In g (_token_fetchers pl) ->
                  managers (snd run) g = managers w g)
    /\ pools (snd run) = pools w
    /\ providers (snd run) = providers w
    /\ posts (snd run) = posts w.
Proof.
  intros cfg self w m pl ex Hadm Hmax Hle run. subst run pl ex.
  rewrite (refresh_token_concurrently_admitted cfg TokenProvider.base self w Hadm).
  destruct (start_all_without_budget cfg self m (_token_fetchers (pools w self))
              w Hmax Hle) as (w' & Hstart & Hall).
  unfold TokenFetcherPool.gather, bind. rewrite Hstart.
  unfold gets. cbv beta iota zeta.
  rewrite resume_all_finished.
  rewrite map_map. cbn [snd].
  rewrite (first_exception_none (fun _ => TokenFetcherPool.Finished PyNone)).
  cbn [TokenFetcherPool.first_exception List.filter fst snd ret].
  destruct (all_failed_marks _ _ _ Hall) as [Hin Hout].
  destruct Hall as (Hpl & Hps & Hpo & _ & Hcalls).
  repeat split; assumption.
Qed.

Lemma bulk_refresh_as_written_without_budget_witness :
  let cfg := with_extras default_config "" 0 0 in
  let w := scenario_pool (mkExecutor 2 0 0) 0 always_error in
  let run :=
    TokenFetcherPool.refresh_token_concurrently
      cfg (dispatch := TokenProvider.base) 0 w in
  fst run = inr tt
  /\ length (refresh_calls (snd run)) = 2%nat
  /\ invalid (managers (snd run) 1) = true
  /\ posts (snd run) = [].
Proof.
  intros cfg w run. subst run.
  assert (Hle : 0 <= _retry_count (pools w 0)) by (vm_compute; discriminate).
  destruct (bulk_refresh_as_written_without_budget cfg 0%nat w 0
              eq_refl eq_refl Hle) as (H1 & H2 & H3 & _ & _ & _ & H7).
  split; [exact H1|]. split; [exact H2|].
  split; [apply H3; vm_compute; right; left; reflexivity | exact H7].
Defined.

(** X18. The bulk refresh of the class as it is written, admitted, with
    retry budget left ([_retry_count < _max_retry]) and a numeric
    [retry_delay]: every member fails, is marked invalid and goes to
    sleep, all of them having tested the counter before any of them
    raises it. With a delay that is not positive every member then
    retries, however small the budget was. With a positive delay the
    members retry one after the other as their timers fire, until the
    [NotImplementedError] of the first retry has reached the caller: the
    first member retries, and as many more as timers fire before the
    caller is resumed. In both cases the counter ends at its old value
    plus the number of retries, [refresh_token()] has been called once
    for each member and once more for each retry, and, unless the pool is
    empty, the call ends in [NotImplementedError]. *)
Theorem bulk_refresh_as_written_with_budget :
  forall (cfg : HandleTokenConfig) (self : nat) (w : World) (m dl : Z),
    let pl := pools w self in
    let ex := _concurrent_refresh_executor pl in
    let n := length (_token_fetchers pl) in
    (_work_queue_qsize ex <? _max_workers ex * 2) = true ->
    _max_retry pl = PyInt m ->
    _retry_count pl < m ->
    extra_attrs cfg !! "retry_delay" = Some (PyInt dl) ->
    let lag := loop_lag w (length (trace w) + 4 * n) in
    let retries := if 0 <? dl then Nat.min n (S lag) else n in
    let run :=
      TokenFetcherPool.refresh_token_concurrently
        cfg (dispatch := TokenProvider.base) self w in
    fst run = (if _token_fetchers pl is [] then inr tt else inl NotImplementedError)
    /\ _retry_count (pools (snd run) self) = _retry_count pl + Z.of_nat retries
    /\ length (refresh_calls (snd run))
       = (n + retries + length (refresh_calls w))%nat
    /\ (forall g, In g (_token_fetchers pl) -> invalid (managers (snd run) g) = true)
    /\ posts (snd run) = posts w.
Proof.
  intros cfg self w m dl pl ex n Hadm Hmax Hlt Hdelay lag retries run.
  subst run retries lag n pl ex.
  rewrite (refresh_token_concurrently_admitted cfg TokenProvider.base self w Hadm).
  destruct (start_all_with_budget cfg self m dl (_token_fetchers (pools w self))
              w Hmax Hlt Hdelay) as (w1 & Hstart & Hall & Hlag & Hlen).
  unfold TokenFetcherPool.gather, bind. rewrite Hstart.
  unfold gets. cbv beta iota zeta.
  rewrite map_map. cbn [snd].
  rewrite (first_exception_none (fun _ => TokenFetcherPool.Sleeping dl)).
  rewrite Hlag, Hlen.
  destruct (resume_all_as_written self
              (loop_lag w (length (trace w)
                           + 4 * length (_token_fetchers (pools w self))))
              dl (_token_fetchers (pools w self)) None w1)
    as (w2 & Hresume & Hcount & Hms & Hpo & Hcalls).
  cbv zeta in Hresume, Hcount, Hcalls.
  unfold resumed_within, TokenFetcherPool.waits_for_timer in Hresume, Hcount, Hcalls.
  rewrite Hresume.
  destruct (all_failed_marks _ _ _ Hall) as [Hin _].
  destruct Hall as (Hpl & _ & Hpo1 & _ & Hcalls1).
  set (k := if 0 <? dl
            then Nat.min (length (_token_fetchers (pools w self)))
                   (S (loop_lag w (length (trace w)
                                   + 4 * length (_token_fetchers (pools w self)))))
            else length (_token_fetchers (pools w self))) in *.
  assert (Hrest :
            _retry_count (pools w2 self)
            = _retry_count (pools w self) + Z.of_nat k
            /\ length (refresh_calls w2)
               = (length (_token_fetchers (pools w self)) + k
                  + length (refresh_calls w))%nat
            /\ (forall g, In g (_token_fetchers (pools w self)) ->
                          invalid (managers w2 g) = true)
            /\ posts w2 = posts w).
  { split; [rewrite Hcount, Hpl; reflexivity|].
    split; [rewrite Hcalls, Hcalls1; lia|].
    split; [intros g Hg; rewrite Hms; apply Hin, Hg | congruence]. }
  assert (Hk : _token_fetchers (pools w self) <> [] -> exists k', k = S k').
  { intros Hne. subst k.
    destruct (_token_fetchers (pools w self)) as [|f rest]; [contradiction|].
    destruct (0 <? dl); cbn; eauto. }
  destruct (_token_fetchers (pools w self)) as [|f rest] eqn:Hfs.
  - assert (k = 0%nat) as -> by (subst k; destruct (0 <? dl); reflexivity).
    cbn. exact (conj eq_refl Hrest).
  - destruct Hk as [k' ->]; [discriminate|].
    cbn. exact (conj eq_refl Hrest).
Qed.

Lemma bulk_refresh_as_written_with_budget_witness :
  let cfg := with_extras default_config "" 1 0 in
  let w := scenario_pool (mkExecutor 2 0 0) 1 always_error in
  let run :=
    TokenFetcherPool.refresh_token_concurrently
      cfg (dispatch := TokenProvider.base) 0 w in
  let cfg' := with_extras default_config "" 1 5 in
  let run' :=
    TokenFetcherPool.refresh_token_concurrently
      cfg' (dispatch := TokenProvider.base) 0 w in
  (_max_retry (pools w 0) = PyInt 1 /\ _retry_count (pools w 0) < 1)
  /\ (fst run = inl NotImplementedError
      /\ _retry_count (pools (snd run) 0) = 2
      /\ length (refresh_calls (snd run)) = 4%nat)
  /\ (fst run' = inl NotImplementedError
      /\ _retry_count (pools (snd run') 0) = 1
      /\ length (refresh_calls (snd run')) = 3%nat).
Proof.
  intros cfg w run cfg' run'. subst run run'.
  assert (Hlt : _retry_count (pools w 0) < 1) by (vm_compute; reflexivity).
  split; [split; [reflexivity | exact Hlt]|].
  destruct (bulk_refresh_as_written_with_budget cfg 0%nat w 1 0
              eq_refl eq_refl Hlt eq_refl) as (H1 & H2 & H3 & _).
  destruct (bulk_refresh_as_written_with_budget cfg' 0%nat w 1 5
              eq_refl eq_refl Hlt eq_refl) as (H1' & H2' & H3' & _).
  split; [split; [exact H1 | split; [exact H2 | exact H3]]|].
  split; [exact H1' | split; [exact H2' | exact H3']].
Defined.

(** ** The settings file *)

Lemma is_field_In (name : string) :
  is_field name = true <-> In name HandleTokenConfig_fields.
Proof.
  unfold is_field. rewrite existsb_exists. split.
  - intros (x & Hin & Heq). apply String.eqb_eq in Heq. subst. exact Hin.
  - intros Hin. exists name. split; [exact Hin | apply String.eqb_refl].
Qed.

Lemma default_settings_fields (name : string) :
  is_Some (default_settings !! name) <-> In name HandleTokenConfig_fields.
Proof.
  rewrite <- list_elem_of_In.
  change HandleTokenConfig_fields
    with ((fun l : list (string * json) => l.*1)
            [ ("login_url", JString "default_login_url");
              ("refresh_url", JString "default_refresh_url");
              ("username", JString "default_username");
              ("password", JString "default_password");
              ("default_token", JString "");
              ("token_keyword", JString "token");
              ("pool_size", JNumber 5);
              ("request_timeout", JNumber 3);
              ("refresh_token_check_interval", JNumber 10);
              ("expiry_time", JNumber 7200);
              ("min_time_between_refreshes", JNumber 300);
              ("max_concurrent_refreshes", JNumber 5);
              ("refresh_failure_attempts_threshold", JNumber 10);
              ("auto_switch_backup_on_failure", JBool false);
              ("retry_delay_multiplier", JNumber 2);
              ("thread_pool_size", JNumber 10);
              ("general_request_retry_attempts", JNumber 2);
              ("token_headers", JNull);
              ("token_cache_cleanup_interval", JNumber 3600) ]).
  cbv beta. unfold default_settings.
  rewrite <- not_eq_None_Some.
  rewrite <- not_elem_of_list_to_map.
  split; [apply dec_stable | intros H Hn; exact (Hn H)].
Qed.

Lemma keywords_declared (kwargs : gmap string json) :
  forallb is_field (map fst (map_to_list kwargs)) = true
  <-> forall name, is_Some (kwargs !! name) -> In name HandleTokenConfig_fields.
Proof.
  rewrite forallb_forall. split.
  - intros H name [v Hv]. apply is_field_In, H.
    apply in_map_iff. exists (name, v). split; [reflexivity|].
    apply list_elem_of_In, elem_of_map_to_list, Hv.
  - intros H name Hin. apply is_field_In, H.
    apply in_map_iff in Hin as ([k v] & <- & Hkv).
    apply list_elem_of_In, elem_of_map_to_list in Hkv. cbn. eauto.
Qed.

Lemma load_config_cases (file : ConfigFile) :
  fst (load_config file) = default_settings
  \/ exists obj,
       file = FileObject obj
       /\ (forall name, is_Some (obj !! name) -> In name HandleTokenConfig_fields)
       /\ load_config file = (obj ∪ default_settings, None).
Proof.
  destruct file as [e|obj|v]; [left; reflexivity | | left; reflexivity].
  unfold load_config, load_config_try, HandleTokenConfig_init.
  destruct (forallb is_field (map fst (map_to_list obj))) eqn:H;
    [|left; reflexivity].
  right. exists obj. split; [reflexivity|].
  split; [apply keywords_declared, H | reflexivity].
Qed.

(** X19. Whatever the settings file holds, and whether or not it can be
    read, the object [load_config()] returns has exactly the nineteen
    declared attributes: every declared setting has a value, and no other
    attribute exists. In particular it has none of [backup_token],
    [max_retry] and [retry_delay], which the token handler reads. *)
Theorem load_config_attributes :
  forall (file : ConfigFile),
    let settings := fst (load_config file) in
    (forall name, is_Some (settings !! name) <-> In name HandleTokenConfig_fields)
    /\ settings !! "backup_token" = None
    /\ settings !! "max_retry" = None
    /\ settings !! "retry_delay" = None.
Proof.
  intros file settings.
  assert (Hdom : forall name,
             is_Some (settings !! name) <-> In name HandleTokenConfig_fields).
  { intros name. subst settings.
    destruct (load_config_cases file) as [->|(obj & _ & Hdecl & ->)].
    - apply default_settings_fields.
    - cbn [fst]. rewrite lookup_union_is_Some, default_settings_fields.
      split; [intros [H|H]; [apply Hdecl, H | exact H] | intros H; right; exact H]. }
  split; [exact Hdom|].
  assert (Hnot : forall name,
             is_field name = false -> settings !! name = None).
  { intros name Hf. apply eq_None_not_Some. intros H.
    apply Hdom, is_field_In in H. congruence. }
  repeat split; apply Hnot; reflexivity.
Qed.

(** X20. A settings file whose object has a key that is not a declared
    field is discarded as a whole: [load_config()] logs the [TypeError]
    and returns the defaults, also for the keys of the file that are
    declared. *)
Theorem load_config_undeclared_key :
  forall (obj : gmap string json) (name : string) (v : json),
    obj !! name = Some v ->
    ~ In name HandleTokenConfig_fields ->
    load_config (FileObject obj) = (default_settings, Some TypeError).
Proof.
  intros obj name v Hv Hnot.
  unfold load_config, load_config_try, HandleTokenConfig_init.
  destruct (forallb is_field (map fst (map_to_list obj))) eqn:H; [|reflexivity].
  exfalso. apply Hnot.
  apply (proj1 (keywords_declared obj) H name). eauto.
Qed.

Lemma load_config_undeclared_key_witness :
  let obj : gmap string json :=
    {[ "expiry_time" := JNumber 60; "backup_token" := JString "backup" ]} in
  ~ In "backup_token" HandleTokenConfig_fields
  /\ load_config (FileObject obj) = (default_settings, Some TypeError)
  /\ fst (load_config (FileObject obj)) !! "expiry_time" = Some (JNumber 7200).
Proof.
  intros obj.
  assert (Hnot : ~ In "backup_token" HandleTokenConfig_fields).
  { intros H. apply is_field_In in H. discriminate. }
  pose proof (load_config_undeclared_key obj "backup_token" (JString "backup")
                eq_refl Hnot) as H.
  split; [exact Hnot|]. split; [exact H|]. rewrite H. reflexivity.
Defined.

(** X21. A settings file whose object has only declared keys is taken as
    it is, with nothing logged: each setting the file gives has the
    file's value, whatever its JSON type, and each setting it does not
    give has its default. *)
Theorem load_config_declared_keys :
  forall (obj : gmap string json),
    (forall name, is_Some (obj !! name) -> In name HandleTokenConfig_fields) ->
    snd (load_config (FileObject obj)) = None
    /\ forall name,
         fst (load_config (FileObject obj)) !! name
         = match obj !! name with
           | Some v => Some v
           | None => default_settings !! name
           end.
Proof.
  intros obj Hdecl.
  apply keywords_declared in Hdecl.
  unfold load_config, load_config_try, HandleTokenConfig_init.
  rewrite Hdecl. cbn [fst snd]. split; [reflexivity|].
  intros name. rewrite lookup_union.
  destruct (obj !! name) as [v|]; [|rewrite left_id; [reflexivity | apply _]].
  destruct (default_settings !! name); reflexivity.
Qed.

Lemma load_config_declared_keys_witness :
  let obj : gmap string json :=
    {[ "expiry_time" := JString "soon"; "pool_size" := JNumber 2 ]} in
  let settings := fst (load_config (FileObject obj)) in
  settings !! "expiry_time" = Some (JString "soon")
  /\ settings !! "pool_size" = Some (JNumber 2)
  /\ settings !! "token_keyword" = Some (JString "token").
Proof.
  intros obj settings. subst settings.
  assert (Hdecl : forall name,
             is_Some (obj !! name) -> In name HandleTokenConfig_fields).
  { apply keywords_declared. vm_compute. reflexivity. }
  destruct (load_config_declared_keys obj Hdecl) as [_ H].
  repeat split; rewrite H; reflexivity.
Defined.

(** ** The provider: construction *)

(** X22. A provider that [__init__] has just set up (with a positive
    [thread_pool_size]) holds the default token, possibly the empty
    string, with no refresh and no failure on record, and it is not
    expired for a manager of it: when the expiry time it computed is not
    0 and the clock, read next, has not passed it, [is_token_expired()]
    of the manager answers false. *)
Theorem new_provider_is_not_expired :
  forall (cfg : HandleTokenConfig) (self m : nat) (w : World),
    0 < thread_pool_size cfg ->
    _token_provider (managers w m) = self ->
    clock w (ticks w) + expiry_time cfg <> 0 ->
    clock w (S (ticks w)) <= clock w (ticks w) + expiry_time cfg ->
    let run := DefaultTokenProvider.__init__ cfg self w in
    fst run = inr tt
    /\ providers (snd run) self
       = mkProvider (PyStr (default_token cfg))
           (clock w (ticks w) + expiry_time cfg) 0 0
    /\ fst (TokenManager.is_token_expired m (snd run)) = inr false.
Proof.
  intros cfg self m w Hpool Hm Hnz Hle run. subst run.
  unfold DefaultTokenProvider.__init__, DefaultTokenProvider.new_executor,
    bind, time_time, put_provider, modify, ret, raise.
  destruct (Z.leb_spec (thread_pool_size cfg) 0) as [|_]; [lia|].
  cbn [fst snd]. split; [reflexivity|].
  split; [cbn; apply fn_lookup_insert|].
  rewrite is_token_expired_run. unfold fetcher_expiry.
  cbn. rewrite Hm, fn_lookup_insert. cbn.
  destruct (Z.eqb_spec (clock w (ticks w) + expiry_time cfg) 0) as [|_];
    [contradiction|].
  cbn. f_equal.
  destruct (Z.gtb_spec (clock w (S (ticks w)))
              (clock w (ticks w) + expiry_time cfg)); [lia | reflexivity].
Qed.

Lemma new_provider_is_not_expired_witness :
  let w := with_manager 0 scenario_manager
             (initial_world (fun _ => 1000) always_error) in
  let run := DefaultTokenProvider.__init__ default_config 0 w in
  0 < thread_pool_size default_config
  /\ providers (snd run) 0 = mkProvider (PyStr "") 8200 0 0
  /\ fst (TokenManager.is_token_expired 0 (snd run)) = inr false.
Proof.
  intros w run. subst run.
  assert (Hpool : 0 < thread_pool_size default_config) by (vm_compute; reflexivity).
  assert (Hnz : clock w (ticks w) + expiry_time default_config <> 0)
    by (vm_compute; discriminate).
  assert (Hle : clock w (S (ticks w))
                <= clock w (ticks w) + expiry_time default_config)
    by (vm_compute; discriminate).
  destruct (new_provider_is_not_expired default_config 0%nat 0%nat w
              Hpool eq_refl Hnz Hle) as (_ & H2 & H3).
  split; [exact Hpool|]. split; [exact H2 | exact H3].
Defined.

(** ** The pool: nothing is ever given to the executor *)

Lemma same_executors_refl (w : World) : same_executors w w.
Proof. intros p. reflexivity. Qed.

Lemma same_executors_trans (w1 w2 w3 : World) :
  same_executors w1 w2 -> same_executors w2 w3 -> same_executors w1 w3.
Proof. intros H12 H23 p. rewrite H23. apply H12. Qed.

Lemma same_executors_pools (w w' : World) :
  pools w' = pools w -> same_executors w w'.
Proof. intros H p. rewrite H. reflexivity. Qed.

Section Executor.

Variable cfg : HandleTokenConfig.
Context {d : TokenProvider.t}.

(** The provider's own [refresh_token] is taken not to write the pools. *)
Hypothesis refresh_token_keeps_pools :
  forall (p : nat) (w : World),
    pools (snd (TokenProvider.refresh_token p w)) = pools w.

Lemma manager_refresh_token_pools (f : nat) (w : World) :
  pools (snd (TokenManager.refresh_token f w)) = pools w.
Proof.
  unfold TokenManager.refresh_token, provider_refresh_token, bind, get_manager,
    gets, emit, modify, ret.
  cbn beta.
  pose proof (refresh_token_keeps_pools (_token_provider (managers w f))
                (set_trace (CallRefreshToken (_token_provider (managers w f))
                            :: trace w) w)) as H.
  destruct (TokenProvider.refresh_token _ _) as [[e|tok] w1]; cbn in H |- *;
    [exact H|].
  destruct (truthy tok && _on_token_updated (managers w1 f)); exact H.
Qed.

Lemma task_start_pools (self f : nat) (w : World) :
  pools (snd (TokenFetcherPool.task_start cfg self f w)) = pools w.
Proof.
  unfold TokenFetcherPool.task_start, try_except, bind at 1.
  pose proof (manager_refresh_token_pools f w) as H.
  destruct (TokenManager.refresh_token f w) as [[e|r] w1]; cbn in H |- *;
    [|exact H].
  unfold TokenFetcherPool._handle_error, TokenFetcherPool.mark_invalid,
    as_number, config_extra, bind, get_manager, put_manager, get_pool, gets,
    modify, log, emit, ret, raise.
  cbn.
  destruct (_max_retry (pools w1 self)) as [|b|z|s]; cbn; try exact H.
  - destruct (_ <? _); cbn; [|exact H].
    destruct (extra_attrs cfg !! "retry_delay") as [[|b'|z'|s']|]; exact H.
  - destruct (_ <? _); cbn; [|exact H].
    destruct (extra_attrs cfg !! "retry_delay") as [[|b'|z'|s']|]; exact H.
Qed.

Lemma task_resume_executors (self f : nat) (w : World) :
  same_executors w (snd (TokenFetcherPool.task_resume self f w)).
Proof.
  unfold TokenFetcherPool.task_resume, bind, get_pool, put_pool, gets, modify.
  cbn beta.
  match goal with
  | |- context [TokenManager.refresh_token f ?w1] =>
      pose proof (manager_refresh_token_pools f w1) as H;
      destruct (TokenManager.refresh_token f w1) as [r w2]
  end.
  cbn in H. intros p.
  assert (Hgoal : _concurrent_refresh_executor (pools w2 p)
                  = _concurrent_refresh_executor (pools w p)).
  { rewrite H.
    destruct (decide (self = p)) as [->|Hne].
    - rewrite fn_lookup_insert. reflexivity.
    - rewrite fn_lookup_insert_ne by exact Hne. reflexivity. }
  destruct r; exact Hgoal.
Qed.

Lemma start_all_pools (self : nat) (fetchers : list nat) :
  forall w : World,
    pools (snd (TokenFetcherPool.start_all cfg self fetchers w)) = pools w.
Proof.
  induction fetchers as [|f rest IH]; intros w; [reflexivity|].
  cbn [TokenFetcherPool.start_all]. unfold bind at 1.
  unfold TokenFetcherPool.settle at 1.
  pose proof (task_start_pools self f w) as H.
  destruct (TokenFetcherPool.task_start cfg self f w) as [r w1]; cbn in H.
  unfold bind at 1. specialize (IH w1).
  destruct (TokenFetcherPool.start_all cfg self rest w1) as [[e|rs] w2];
    cbn in IH |- *; congruence.
Qed.

Lemma resume_all_executors (self : nat) (lag : nat)
    (started : list (nat * (exn + TokenFetcherPool.TaskStep))) :
  forall (pending : option nat) (w : World),
    same_executors w
      (snd (TokenFetcherPool.resume_all self lag pending started w)).
Proof.
  induction started as [|[f [e|[r|seconds]]] rest IH]; intros pending w;
    cbn [TokenFetcherPool.resume_all];
    [apply same_executors_refl | apply IH | apply IH |].
  destruct (TokenFetcherPool.waits_for_timer seconds
            && TokenFetcherPool.delivered pending); [apply IH|].
  unfold bind at 1. unfold TokenFetcherPool.settle at 1.
  pose proof (task_resume_executors self f w) as H.
  destruct (TokenFetcherPool.task_resume self f w) as [r w1]; cbn in H.
  cbv zeta. unfold bind at 1.
  match goal with
  | |- context [TokenFetcherPool.resume_all self lag ?pending' rest w1] =>
      specialize (IH pending' w1);
      destruct (TokenFetcherPool.resume_all self lag pending' rest w1)
        as [[e|rs] w2]
  end; cbn in IH |- *; exact (same_executors_trans _ _ _ H IH).
Qed.

Lemma refresh_token_concurrently_executors (self : nat) (w : World) :
  same_executors w (snd (TokenFetcherPool.refresh_token_concurrently cfg self w)).
Proof.
  unfold TokenFetcherPool.refresh_token_concurrently,
    TokenFetcherPool._can_refresh_concurrently, bind at 1 2, get_pool, gets, ret.
  cbn beta zeta.
  destruct (_ <? _); [|intros p; reflexivity].
  unfold bind at 1. cbn beta.
  unfold TokenFetcherPool.gather, bind at 1.
  pose proof (start_all_pools self (_token_fetchers (pools w self)) w) as Hs.
  destruct (TokenFetcherPool.start_all cfg self (_token_fetchers (pools w self)) w)
    as [[e|started] w1]; cbn in Hs |- *;
    [apply same_executors_pools, Hs|].
  unfold bind at 1. cbn beta iota.
  match goal with
  | |- context [TokenFetcherPool.resume_all self ?lag ?pending started w1] =>
      pose proof (resume_all_executors self lag started pending w1) as Hr;
      destruct (TokenFetcherPool.resume_all self lag pending started w1)
        as [[e|resumed] w2]
  end; cbn in Hr |- *.
  - exact (same_executors_trans _ _ _ (same_executors_pools _ _ Hs) Hr).
  - assert (H : same_executors w w2)
      by exact (same_executors_trans _ _ _ (same_executors_pools _ _ Hs) Hr).
    destruct (TokenFetcherPool.first_exception (map snd started)); [exact H|].
    destruct (TokenFetcherPool.first_exception resumed); exact H.
Qed.

Lemma release_token_fetcher_executors (self fetcher : nat) (w : World) :
  same_executors w (snd (TokenFetcherPool.release_token_fetcher self fetcher w)).
Proof.
  unfold TokenFetcherPool.release_token_fetcher, bind at 1, get_pool at 1,
    gets at 1.
  destruct (existsb _ _); [apply same_executors_refl|].
  unfold try_except, bind, get_pool, put_pool, gets, modify, ret.
  pose proof (manager_refresh_token_pools fetcher w) as H.
  destruct (TokenManager.refresh_token fetcher w) as [[e|r] w1]; cbn in H |- *.
  - intros p. cbn. destruct (decide (self = p)) as [->|Hne].
    + rewrite fn_lookup_insert. cbn. rewrite H. reflexivity.
    + rewrite fn_lookup_insert_ne by exact Hne. rewrite H. reflexivity.
  - intros p. cbn. destruct (decide (self = p)) as [->|Hne].
    + rewrite fn_lookup_insert. cbn. rewrite H. reflexivity.
    + rewrite fn_lookup_insert_ne by exact Hne. rewrite H. reflexivity.
Qed.

End Executor.

Lemma can_refresh_same_executors (p : nat) (w w' : World) :
  same_executors w w' ->
  fst (TokenFetcherPool._can_refresh_concurrently p w')
  = fst (TokenFetcherPool._can_refresh_concurrently p w).
Proof.
  intros H.
  unfold TokenFetcherPool._can_refresh_concurrently, bind, get_pool, gets, ret.
  cbn. rewrite (H p). reflexivity.
Qed.

(** X23. No method of the pool gives work to the executor or changes it:
    after [refresh_token_concurrently()] and after
    [release_token_fetcher(fetcher)], whatever they did,
    [_can_refresh_concurrently()] answers for every pool what it answered
    before. For an executor as [TokenFetcherPool.__init__] builds it
    ([max(2, pool_size // 2)] workers, nothing queued) the answer is
    true, so the bulk refresh of such a pool is admitted every time.
    (The provider's [refresh_token] is taken not to write the pools.) *)
Theorem admission_never_changes :
  forall (cfg : HandleTokenConfig) (d : TokenProvider.t),
    (forall (p : nat) (w : World),
        pools (snd (TokenProvider.refresh_token p w)) = pools w) ->
    forall (self fetcher p : nat) (w : World),
      let after_bulk :=
        snd (TokenFetcherPool.refresh_token_concurrently cfg self w) in
      let after_release :=
        snd (TokenFetcherPool.release_token_fetcher self fetcher w) in
      fst (TokenFetcherPool._can_refresh_concurrently p after_bulk)
      = fst (TokenFetcherPool._can_refresh_concurrently p w)
      /\ fst (TokenFetcherPool._can_refresh_concurrently p after_release)
         = fst (TokenFetcherPool._can_refresh_concurrently p w)
      /\ forall n : Z,
           _concurrent_refresh_executor (pools w p)
           = mkExecutor (Z.max 2 (n / 2)) 0 0 ->
           fst (TokenFetcherPool._can_refresh_concurrently p w) = inr true.
Proof.
  intros cfg d Hkeeps self fetcher p w after_bulk after_release.
  split; [|split].
  - apply can_refresh_same_executors.
    exact (@refresh_token_concurrently_executors cfg d Hkeeps self w).
  - apply can_refresh_same_executors.
    exact (@release_token_fetcher_executors d Hkeeps self fetcher w).
  - intros n Hex.
    unfold TokenFetcherPool._can_refresh_concurrently, bind, get_pool, gets, ret.
    cbn. rewrite Hex. cbn. f_equal. apply Z.ltb_lt. lia.
Qed.

Lemma admission_never_changes_witness :
  let cfg := with_extras default_config "" 1 0 in
  let w := scenario_pool (mkExecutor (Z.max 2 (5 / 2)) 0 0) 1 always_error in
  let after_bulk :=
    snd (TokenFetcherPool.refresh_token_concurrently
           cfg (dispatch := TokenProvider.base) 0 w) in
  (forall (p : nat) (w : World),
      pools (snd (TokenProvider.refresh_token (t := TokenProvider.base) p w))
      = pools w)
  /\ fst (TokenFetcherPool._can_refresh_concurrently 0 w) = inr true
  /\ fst (TokenFetcherPool._can_refresh_concurrently 0 after_bulk) = inr true.
Proof.
  intros cfg w after_bulk. subst after_bulk.
  assert (Hkeeps : forall (p : nat) (w : World),
             pools (snd (TokenProvider.refresh_token (t := TokenProvider.base) p w))
             = pools w) by reflexivity.
  destruct (admission_never_changes cfg TokenProvider.base Hkeeps
              0%nat 0%nat 0%nat w) as (H1 & _ & H3).
  split; [exact Hkeeps|].
  split; [exact (H3 5 eq_refl)|].
  rewrite H1. exact (H3 5 eq_refl).
Defined.
